(** * eris-lavalink: node orchestration and session lifecycle

    A shallow embedding of [src/Lavalink.ts], [src/Player.ts] and
    [src/PlayerManager.ts], and the properties of the design document
    checked against it.

    Conventions of the embedding.
    - JavaScript numbers that the code only uses as integers (retry
      counters, delays, positions, shard ids) are [Z]; the cpu load of a
      node is a rational ([Q]): the comparison of two loads is exact here,
      where the source compares doubles.
    - A JavaScript [Map] is an association list in insertion order
      ([Map.set] on a present key keeps its place); objects that are shared
      by reference (players, nodes) live in a heap and are named by their
      index.
    - A method of [Player] or [Lavalink] is a function on the record of the
      object that also lists, in program order, the calls it makes on the
      outside ([node.send], [process.nextTick], [emit], [setTimeout], ...);
      [PlayerManager] runs those effects on the whole world, in a state
      monad in which a thrown exception keeps the mutations done so far.
    - Closures are defunctionalised: a listener, a next-tick callback, a
      timer callback or a promise reaction is a constructor carrying the
      variables the closure captures. *)

From Stdlib Require Import List String ZArith QArith Bool Lia Lqa Permutation.
Import ListNotations.

Local Open Scope string_scope.
Local Open Scope list_scope.
Local Open Scope Z_scope.

(** ** JavaScript helpers *)

Module Js.

(** Truthiness of a string: only the empty string is falsy. *)
Definition truthy_str (s : string) : bool := negb (String.eqb s "").

(** Truthiness of a number: zero is falsy. *)
Definition truthy_num (z : Z) : bool := negb (z =? 0).

(** [a || b] on strings. *)
Definition or_str (a b : string) : string := if truthy_str a then a else b.

(** [a || b] where [a] may be undefined and is a number. *)
Definition or_num (a : option Z) (b : Z) : Z :=
  match a with
  | Some z => if truthy_num z then z else b
  | None => b
  end.

(** [a || b] where [a] may be undefined and is a string. *)
Definition or_ostr (a : option string) (b : string) : string :=
  match a with
  | Some s => or_str s b
  | None => b
  end.

(** [a || null] on an optional string. *)
Definition or_null (a : option string) : option string :=
  match a with
  | Some s => if truthy_str s then Some s else None
  | None => None
  end.

(** Strict equality of two possibly-null strings. *)
Definition seq_ostr (a b : option string) : bool :=
  match a, b with
  | Some x, Some y => String.eqb x y
  | None, None => true
  | _, _ => false
  end.

(** [s.startsWith(p)]. *)
Definition startsWith (s p : string) : bool := String.prefix p s.

(** [s.replace(pat, by)] with a string pattern: the first occurrence only. *)
Fixpoint replace_first (fuel : nat) (pat by_ s : string) : string :=
  if String.prefix pat s
  then String.append by_
         (String.substring (String.length pat)
                           (String.length s - String.length pat)%nat s)
  else match fuel, s with
       | S f, String c rest => String c (replace_first f pat by_ rest)
       | _, _ => s
       end.

Definition replace (s pat by_ : string) : string :=
  replace_first (String.length s) pat by_ s.

(** A [Map]: association list in insertion order. *)
Section Map.
Context {V : Type}.

Fixpoint get (k : string) (m : list (string * V)) : option V :=
  match m with
  | [] => None
  | (k', v) :: rest => if String.eqb k k' then Some v else get k rest
  end.

Fixpoint set (k : string) (v : V) (m : list (string * V)) : list (string * V) :=
  match m with
  | [] => [(k, v)]
  | (k', v') :: rest =>
      if String.eqb k k' then (k, v) :: rest else (k', v') :: set k v rest
  end.

Fixpoint delete (k : string) (m : list (string * V)) : list (string * V) :=
  match m with
  | [] => []
  | (k', v') :: rest =>
      if String.eqb k k' then rest else (k', v') :: delete k rest
  end.

Definition values (m : list (string * V)) : list V := map snd m.
End Map.

(** A heap of objects: a reference is an index. *)
Section Heap.
Context {A : Type}.

Definition deref (h : list A) (r : nat) : option A := nth_error h r.

Fixpoint assign (h : list A) (r : nat) (x : A) : list A :=
  match h, r with
  | [], _ => []
  | _ :: t, O => x :: t
  | y :: t, S r' => y :: assign t r' x
  end.

Definition alloc (h : list A) (x : A) : list A * nat :=
  (h ++ [x], List.length h).
End Heap.

(** [Array.prototype.sort(cmp)]: a stable sort; [cmp a b <= 0] keeps [a]
    in front of [b]. *)
Section Sort.
Context {A : Type} (cmp : A -> A -> Q).

Fixpoint sort_insert (x : A) (l : list A) : list A :=
  match l with
  | [] => [x]
  | y :: ys => if Qle_bool (cmp x y) 0 then x :: l else y :: sort_insert x ys
  end.

Definition sort (l : list A) : list A := fold_right sort_insert [] l.
End Sort.

End Js.

(** ** Wire protocol: the payloads a session sends to its node *)

Record VoiceEvent := {
  ve_endpoint : string;
  ve_guild_id : string;
  ve_token : string
}.

(** The options object of [play]: the fields Lavalink reads. *)
Record PlayOptions := {
  startTime : option Z;
  endTime : option Z
}.

Record Band := { band : Z; gain : Q }.

Inductive Payload :=
| OpVoiceUpdate (guildId sessionId : string) (event : VoiceEvent)
| OpPlay (guildId : string) (track : option string) (options : option PlayOptions)
| OpStop (guildId : string)
| OpDestroy (guildId : string)
| OpPause (guildId : string) (pause : bool)
| OpSeek (guildId : string) (position : Z)
| OpVolume (guildId : string) (volume : Z)
| OpEqualizer (guildId : string) (bands : option Band).

(** ** Lavalink.ts: one node *)

Module Lavalink.

Record Cpu := { systemLoad : Q; cores : Z }.

Record Stats := {
  players : Z;
  playingPlayers : Z;
  cpu : option Cpu
}.

(** The socket of a node: what [ws.send] was given, oldest first, and
    whether the close listener [disconnectHandler] is attached. *)
Record WebSocket := {
  frames : list Payload;
  closeListener : bool
}.

Record Options := {
  o_host : string;
  o_port : option Z;
  o_region : option string;
  o_timeout : option Z
}.

(** [reconnectInterval] holds the handle of the last timer armed (null
    when none): the embedding keeps the delay it was armed with. The
    handle stays in the field after the timer fired. *)
Record t := {
  host : string;
  port : Z;
  region : option string;
  connected : bool;
  draining : bool;
  retries : Z;
  reconnectTimeout : Z;
  reconnectInterval : option Z;
  stats : Stats;
  ws : option WebSocket
}.

Inductive Event := EvReady | EvDisconnect | EvError (msg : string) | EvMessage.

Inductive Effect :=
| Emit (e : Event)
| SetTimeout (delay : Z)      (* setTimeout(this.reconnect.bind(this), delay) *)
| ClearTimeout                (* clearTimeout(this.reconnectInterval) *)
| CloseSocket.                (* this.ws.close() *)

Definition set_connected (b : bool) (n : t) : t :=
  {| host := host n; port := port n; region := region n; connected := b;
     draining := draining n; retries := retries n;
     reconnectTimeout := reconnectTimeout n;
     reconnectInterval := reconnectInterval n; stats := stats n; ws := ws n |}.

Definition set_retries (r : Z) (n : t) : t :=
  {| host := host n; port := port n; region := region n;
     connected := connected n; draining := draining n; retries := r;
     reconnectTimeout := reconnectTimeout n;
     reconnectInterval := reconnectInterval n; stats := stats n; ws := ws n |}.

Definition set_reconnectInterval (i : option Z) (n : t) : t :=
  {| host := host n; port := port n; region := region n;
     connected := connected n; draining := draining n; retries := retries n;
     reconnectTimeout := reconnectTimeout n;
     reconnectInterval := i; stats := stats n; ws := ws n |}.

Definition set_ws (s : option WebSocket) (n : t) : t :=
  {| host := host n; port := port n; region := region n;
     connected := connected n; draining := draining n; retries := retries n;
     reconnectTimeout := reconnectTimeout n;
     reconnectInterval := reconnectInterval n; stats := stats n; ws := s |}.

Definition set_stats (s : Stats) (n : t) : t :=
  {| host := host n; port := port n; region := region n;
     connected := connected n; draining := draining n; retries := retries n;
     reconnectTimeout := reconnectTimeout n;
     reconnectInterval := reconnectInterval n; stats := s; ws := ws n |}.

(** [connect()]: a new socket replaces [this.ws]; the close listener is
    attached. *)
Definition connect (n : t) : t :=
  set_ws (Some {| frames := []; closeListener := true |}) n.

(** The constructor, [this.connect()] included. *)
Definition new (o : Options) : t :=
  connect
    {| host := o_host o;
       port := Js.or_num (o_port o) 80;
       region := Js.or_null (o_region o);
       connected := false;
       draining := false;
       retries := 0;
       reconnectTimeout := Js.or_num (o_timeout o) 5000;
       reconnectInterval := None;
       stats := {| players := 0; playingPlayers := 0; cpu := None |};
       ws := None |}.

(** [retryInterval()]. *)
Definition retryInterval (n : t) : Z :=
  let retries := Z.min (retries n - 1) 5 in
  (retries + 5) ^ 2 * 1000.

(** [reconnect()]: the callback of the reconnect timer. *)
Definition reconnect (n : t) : t * list Effect :=
  let interval := retryInterval n in
  let n := set_reconnectInterval (Some interval) n in
  let n := set_retries (retries n + 1) n in
  (connect n, [SetTimeout interval]).

(** [destroy()]. *)
Definition destroy (n : t) : t * list Effect :=
  match ws n with
  | Some s =>
      (set_ws (Some {| frames := frames s; closeListener := false |}) n,
       [CloseSocket])
  | None => (n, [])
  end.

(** [ready()]: the socket opened. *)
Definition ready (n : t) : t * list Effect :=
  let '(n, e) :=
    match reconnectInterval n with
    | Some _ => (set_reconnectInterval None n, [ClearTimeout])
    | None => (n, [])
    end in
  let n := set_connected true n in
  let n := set_retries 0 n in
  (n, e ++ [Emit EvReady]).

(** [disconnected()]: the socket closed. *)
Definition disconnected (n : t) : t * list Effect :=
  let n := set_connected false n in
  let e1 := match reconnectInterval n with
            | None => [Emit EvDisconnect]
            | Some _ => []
            end in
  let n := set_ws None n in
  match reconnectInterval n with
  | None =>
      (set_reconnectInterval (Some (reconnectTimeout n)) n,
       e1 ++ [SetTimeout (reconnectTimeout n)])
  | Some _ => (n, e1)
  end.

(** [send(data)]: dropped when there is no socket. A payload of the
    embedding always serialises. *)
Definition send (data : Payload) (n : t) : t :=
  match ws n with
  | None => n
  | Some s =>
      set_ws (Some {| frames := frames s ++ [data];
                      closeListener := closeListener s |}) n
  end.

(** [onMessage(message)] for a message that parses: a stats message
    replaces the cached stats. *)
Definition onMessage (data : option Stats) (n : t) : t * list Effect :=
  match data with
  | Some s => (set_stats s n, [Emit EvMessage])
  | None => (n, [Emit EvMessage])
  end.


(** The delays of the timers an effect list arms. *)
Definition delays (es : list Effect) : list Z :=
  flat_map (fun e => match e with SetTimeout d => [d] | _ => [] end) es.

(** One failed reconnect: the timer fires ([reconnect]), the new socket
    never opens and closes ([disconnected]). *)
Definition failed_attempt (n : t) : t * list Z :=
  let '(n1, e1) := reconnect n in
  let '(n2, e2) := disconnected n1 in
  (n2, delays e1 ++ delays e2).

Fixpoint failed_attempts (k : nat) (n : t) : t * list Z :=
  match k with
  | O => (n, [])
  | S k' =>
      let '(n1, d1) := failed_attempt n in
      let '(n2, d2) := failed_attempts k' n1 in
      (n2, d1 ++ d2)
  end.

(** The socket of [n] closes and the next [k] redials all fail: the
    delays of the timers armed, in order. The first one is waited before
    the first redial, the next before the second, and so on. *)
Definition redial_waits (k : nat) (n : t) : list Z :=
  let '(n1, e1) := disconnected n in
  delays e1 ++ snd (failed_attempts k n1).

(** The retry counter after the socket closed and [k] redials failed. *)
Definition retries_after (k : nat) (n : t) : Z :=
  retries (fst (failed_attempts k (fst (disconnected n)))).

(** The load the sort of [findIdealNode] compares. *)
Definition load (n : t) : Q :=
  match cpu (stats n) with
  | Some c => (systemLoad c / inject_Z (cores c)) * 100
  | None => 0
  end.

End Lavalink.

(** ** Player.ts: one session *)

(** The options of [join]: a node chosen by the caller (its host), or the
    region of the guild. *)
Record JoinOptions := {
  jo_node : option string;
  jo_region : option string
}.

(** The shard handle of the host framework: its id, and whether it has a
    [sendWS] function. *)
Module Shard.
Record t := { id : option Z; sendWS : bool }.
End Shard.

Module Player.

Inductive EventName :=
| EvConnect | EvReady | EvDisconnect | EvEnd | EvError | EvWarn | EvReconnect.

Definition EventName_eqb (a b : EventName) : bool :=
  match a, b with
  | EvConnect, EvConnect | EvReady, EvReady | EvDisconnect, EvDisconnect
  | EvEnd, EvEnd | EvError, EvError | EvWarn, EvWarn
  | EvReconnect, EvReconnect => true
  | _, _ => false
  end.

(** One registration of the event emitter: the event, the function (a
    reference into the heap of closures), and whether [once] wrapped it. *)
Record Registration := {
  ev : EventName;
  fn : nat;
  once_ : bool
}.

(** The [state] object: [{ position?: number }]. *)
Record State := { position : option Z }.

(** The callbacks a session gives to [process.nextTick]. *)
Inductive Tick :=
| CheckEventQueue                                (* () => this.checkEventQueue() *)
| EmitLater (e : EventName) (arg : option string).  (* () => this.emit(...) *)

(** The calls a method makes on the outside, in program order. *)
Inductive Effect :=
| Send (data : Payload)                          (* this.node.send(data) *)
| NextTick (t : Tick)                            (* process.nextTick(t) *)
| Emit (e : EventName) (arg : option string)     (* this.emit(e, arg) *)
| SwitchNode                                     (* this.manager.switchNode(this) *)
| SendWS (guild_id channel_id : option string) (self_mute self_deaf : bool).
                                                 (* this.shard.sendWS(VOICE_STATE_UPDATE, ...) *)

Record t := {
  id : string;
  node : nat;
  hostname : option string;
  guildId : string;
  channelId : string;
  options : option JoinOptions;
  ready : bool;
  playing : bool;
  paused : bool;
  shard : Shard.t;
  state : State;
  track : option string;
  sendQueue : list Payload;
  timestamp : Z;
  lastTrack : option string;
  playOptions : option PlayOptions;
  listeners : list Registration
}.

(** Field updates. *)
Definition set_node (v : nat) (p : t) : t :=
  {| id := id p; node := v; hostname := hostname p; guildId := guildId p;
     channelId := channelId p; options := options p; ready := ready p;
     playing := playing p; paused := paused p; shard := shard p;
     state := state p; track := track p; sendQueue := sendQueue p;
     timestamp := timestamp p; lastTrack := lastTrack p;
     playOptions := playOptions p; listeners := listeners p |}.

Definition set_hostname (v : option string) (p : t) : t :=
  {| id := id p; node := node p; hostname := v; guildId := guildId p;
     channelId := channelId p; options := options p; ready := ready p;
     playing := playing p; paused := paused p; shard := shard p;
     state := state p; track := track p; sendQueue := sendQueue p;
     timestamp := timestamp p; lastTrack := lastTrack p;
     playOptions := playOptions p; listeners := listeners p |}.

Definition set_channelId (v : string) (p : t) : t :=
  {| id := id p; node := node p; hostname := hostname p;
     guildId := guildId p; channelId := v; options := options p;
     ready := ready p; playing := playing p; paused := paused p;
     shard := shard p; state := state p; track := track p;
     sendQueue := sendQueue p; timestamp := timestamp p;
     lastTrack := lastTrack p; playOptions := playOptions p;
     listeners := listeners p |}.

Definition set_playing (v : bool) (p : t) : t :=
  {| id := id p; node := node p; hostname := hostname p;
     guildId := guildId p; channelId := channelId p; options := options p;
     ready := ready p; playing := v; paused := paused p; shard := shard p;
     state := state p; track := track p; sendQueue := sendQueue p;
     timestamp := timestamp p; lastTrack := lastTrack p;
     playOptions := playOptions p; listeners := listeners p |}.

Definition set_paused (v : bool) (p : t) : t :=
  {| id := id p; node := node p; hostname := hostname p;
     guildId := guildId p; channelId := channelId p; options := options p;
     ready := ready p; playing := playing p; paused := v; shard := shard p;
     state := state p; track := track p; sendQueue := sendQueue p;
     timestamp := timestamp p; lastTrack := lastTrack p;
     playOptions := playOptions p; listeners := listeners p |}.

Definition set_state (v : State) (p : t) : t :=
  {| id := id p; node := node p; hostname := hostname p;
     guildId := guildId p; channelId := channelId p; options := options p;
     ready := ready p; playing := playing p; paused := paused p;
     shard := shard p; state := v; track := track p;
     sendQueue := sendQueue p; timestamp := timestamp p;
     lastTrack := lastTrack p; playOptions := playOptions p;
     listeners := listeners p |}.

Definition set_track (v : option string) (p : t) : t :=
  {| id := id p; node := node p; hostname := hostname p;
     guildId := guildId p; channelId := channelId p; options := options p;
     ready := ready p; playing := playing p; paused := paused p;
     shard := shard p; state := state p; track := v;
     sendQueue := sendQueue p; timestamp := timestamp p;
     lastTrack := lastTrack p; playOptions := playOptions p;
     listeners := listeners p |}.

Definition set_sendQueue (v : list Payload) (p : t) : t :=
  {| id := id p; node := node p; hostname := hostname p;
     guildId := guildId p; channelId := channelId p; options := options p;
     ready := ready p; playing := playing p; paused := paused p;
     shard := shard p; state := state p; track := track p; sendQueue := v;
     timestamp := timestamp p; lastTrack := lastTrack p;
     playOptions := playOptions p; listeners := listeners p |}.

Definition set_timestamp (v : Z) (p : t) : t :=
  {| id := id p; node := node p; hostname := hostname p;
     guildId := guildId p; channelId := channelId p; options := options p;
     ready := ready p; playing := playing p; paused := paused p;
     shard := shard p; state := state p; track := track p;
     sendQueue := sendQueue p; timestamp := v; lastTrack := lastTrack p;
     playOptions := playOptions p; listeners := listeners p |}.

Definition set_lastTrack (v : option string) (p : t) : t :=
  {| id := id p; node := node p; hostname := hostname p;
     guildId := guildId p; channelId := channelId p; options := options p;
     ready := ready p; playing := playing p; paused := paused p;
     shard := shard p; state := state p; track := track p;
     sendQueue := sendQueue p; timestamp := timestamp p; lastTrack := v;
     playOptions := playOptions p; listeners := listeners p |}.

Definition set_playOptions (v : option PlayOptions) (p : t) : t :=
  {| id := id p; node := node p; hostname := hostname p;
     guildId := guildId p; channelId := channelId p; options := options p;
     ready := ready p; playing := playing p; paused := paused p;
     shard := shard p; state := state p; track := track p;
     sendQueue := sendQueue p; timestamp := timestamp p;
     lastTrack := lastTrack p; playOptions := v;
     listeners := listeners p |}.

Definition set_listeners (v : list Registration) (p : t) : t :=
  {| id := id p; node := node p; hostname := hostname p;
     guildId := guildId p; channelId := channelId p; options := options p;
     ready := ready p; playing := playing p; paused := paused p;
     shard := shard p; state := state p; track := track p;
     sendQueue := sendQueue p; timestamp := timestamp p;
     lastTrack := lastTrack p; playOptions := playOptions p;
     listeners := v |}.

(** The arguments of the constructor. *)
Record Data := {
  d_channelId : string;
  d_guildId : string;
  d_hostname : option string;
  d_node : nat;
  d_shard : Shard.t;
  d_options : option JoinOptions
}.

(** The constructor; [now] is [Date.now()]. *)
Definition new (id_ : string) (o : Data) (now : Z) : t :=
  {| id := id_;
     node := d_node o;
     hostname := d_hostname o;
     guildId := d_guildId o;
     channelId := d_channelId o;
     options := d_options o;
     ready := false;
     playing := false;
     paused := false;
     shard := d_shard o;
     state := {| position := None |};
     track := None;
     sendQueue := [];
     timestamp := now;
     lastTrack := None;
     playOptions := None;
     listeners := [] |}.

(** *** The event emitter the class extends *)

Definition on (e : EventName) (f : nat) (p : t) : t :=
  set_listeners (listeners p ++ [{| ev := e; fn := f; once_ := false |}]) p.

Definition once (e : EventName) (f : nat) (p : t) : t :=
  set_listeners (listeners p ++ [{| ev := e; fn := f; once_ := true |}]) p.

(** Removes the first registration that matches. *)
Fixpoint remove_first (m : Registration -> bool) (l : list Registration)
  : list Registration :=
  match l with
  | [] => []
  | r :: rest => if m r then rest else r :: remove_first m rest
  end.

(** [removeListener(e, f)]: the most recent registration of [f] for [e]
    goes. *)
Definition removeListener (e : EventName) (f : nat) (p : t) : t :=
  set_listeners
    (rev (remove_first (fun r => EventName_eqb (ev r) e && Nat.eqb (fn r) f)
                       (rev (listeners p)))) p.

(** What the [once] wrapper of [f] does before it calls [f]: it removes
    itself, a registration of [f] for [e] that [once] wrapped. *)
Definition remove_wrapper (e : EventName) (f : nat) (p : t) : t :=
  set_listeners
    (remove_first (fun r => EventName_eqb (ev r) e && Nat.eqb (fn r) f && once_ r)
                  (listeners p)) p.

(** The registrations of an event, oldest first. *)
Definition registered (e : EventName) (p : t) : list Registration :=
  filter (fun r => EventName_eqb (ev r) e) (listeners p).

(** [listeners(e)]: the functions registered for [e], unwrapped. *)
Definition listeners_of (e : EventName) (p : t) : list nat :=
  map fn (registered e p).

(** *** Methods *)

Definition Method := t -> t * list Effect.

Definition andThen (f g : Method) : Method :=
  fun p =>
    let '(p1, e1) := f p in
    let '(p2, e2) := g p1 in
    (p2, e1 ++ e2).

Definition mutate (f : t -> t) : Method := fun p => (f p, []).
Definition perform (e : Effect) : Method := fun p => (p, [e]).
Definition skip : Method := fun p => (p, []).

Declare Scope method_scope.
Delimit Scope method_scope with method.
Notation "f ;; g" := (andThen f g)
  (at level 61, right associativity) : method_scope.
Local Open Scope method_scope.

(** [sendEvent(data)]. *)
Definition sendEvent (data : Payload) : Method :=
  perform (Send data) ;;
  perform (NextTick CheckEventQueue).

(** [queueEvent(data)]. *)
Definition queueEvent (data : Payload) : Method :=
  fun p =>
    if (0 <? List.length (sendQueue p))%nat
    then mutate (set_sendQueue (sendQueue p ++ [data])) p
    else sendEvent data p.

(** [checkEventQueue()]. *)
Definition checkEventQueue : Method :=
  fun p =>
    match sendQueue p with
    | event :: rest => (mutate (set_sendQueue rest) ;; sendEvent event) p
    | [] => skip p
    end.

(** [connect(data)]. *)
Definition connect (guildId_ sessionId : string) (event : VoiceEvent) : Method :=
  perform (Emit EvConnect None) ;;
  queueEvent (OpVoiceUpdate guildId_ sessionId event) ;;
  perform (NextTick (EmitLater EvReady None)).

(** [stop()]. *)
Definition stop : Method :=
  (fun p => queueEvent (OpStop (guildId p)) p) ;;
  mutate (set_playing false) ;;
  mutate (fun p => set_lastTrack (track p) p) ;;
  mutate (set_track None).

(** [setPause(pause)]. *)
Definition setPause (pause : bool) : Method :=
  (fun p => perform (Send (OpPause (guildId p) pause)) p) ;;
  mutate (set_paused pause) ;;
  mutate (set_playing (negb pause)).

(** [pause()]. *)
Definition pause : Method :=
  fun p => if playing p then setPause true p else skip p.

(** [resume()]. *)
Definition resume : Method :=
  fun p => if negb (playing p) && paused p then setPause false p else skip p.

(** [_disconnect()]. *)
Definition _disconnect : Method :=
  mutate (set_playing false) ;;
  (fun p => if paused p then resume p else skip p) ;;
  (fun p => queueEvent (OpDestroy (guildId p)) p) ;;
  stop.

(** [disconnect(msg)]. *)
Definition disconnect (msg : option string) : Method :=
  _disconnect ;;
  perform (Emit EvDisconnect msg).

(** [setEQ(options)]. *)
Definition setEQ (options_ : Band) : Method :=
  fun p => perform (Send (OpEqualizer (guildId p) (Some options_))) p.

(** [destroy()]. *)
Definition destroy : Method :=
  fun p => perform (Send (OpEqualizer (guildId p) None)) p.

(** [play(track, options)]; [draining] is [this.node.draining] and [now]
    is [Date.now()]. *)
Definition play (track_ : option string) (options_ : option PlayOptions)
                (draining : bool) (now : Z) : Method :=
  mutate (fun p => set_lastTrack (track p) p) ;;
  mutate (set_track track_) ;;
  mutate (set_playOptions options_) ;;
  if draining
  then mutate (set_state {| position := Some 0 |}) ;;
       perform SwitchNode
  else (fun p => queueEvent (OpPlay (guildId p) track_ options_) p) ;;
       mutate (fun p => set_playing (negb (paused p)) p) ;;
       mutate (set_timestamp now).

(** [stateUpdate(state)]. *)
Definition stateUpdate (state_ : State) : Method :=
  mutate (set_state state_).

(** [seek(position)]. *)
Definition seek (position_ : Z) : Method :=
  fun p => perform (Send (OpSeek (guildId p) position_)) p.

(** [setVolume(volume)]. *)
Definition setVolume (volume : Z) : Method :=
  fun p => perform (Send (OpVolume (guildId p) volume)) p.

(** [onTrackEnd(message)]. *)
Definition onTrackEnd (reason : string) : Method :=
  (if negb (String.eqb reason "REPLACED")
   then mutate (set_playing false) ;;
        mutate (fun p => set_lastTrack (track p) p) ;;
        mutate (set_track None)
   else skip) ;;
  perform (Emit EvEnd (Some reason)).

(** [onTrackException(message)]. *)
Definition onTrackException (message : option string) : Method :=
  perform (Emit EvError message).

(** [onTrackStuck(message)]. *)
Definition onTrackStuck (message : option string) : Method :=
  stop ;;
  perform (NextTick (EmitLater EvEnd message)).

(** [updateVoiceState(channelId, selfMute, selfDeaf)]. *)
Definition updateVoiceState (channelId_ : option string)
                            (selfMute selfDeaf : bool) : Method :=
  fun p =>
    if Shard.sendWS (shard p)
    then perform (SendWS (if String.eqb (id p) "call" then None else Some (id p))
                         (Js.or_null channelId_) selfMute selfDeaf) p
    else skip p.

(** [switchChannel(channelId, reactive)]. *)
Definition switchChannel (channelId_ : string) (reactive : bool) : Method :=
  fun p =>
    if String.eqb (channelId p) channelId_ then skip p
    else (mutate (set_channelId channelId_) ;;
          (if reactive then updateVoiceState (Some channelId_) false false
           else skip)) p.

(** [getTimestamp()]. *)
Definition getTimestamp (now : Z) (p : t) : Z := now - timestamp p.

(** The calls of the public interface. *)
Inductive Call :=
| Connect (guildId_ sessionId : string) (event : VoiceEvent)
| Disconnect (msg : option string)
| Disconnect_                                  (* _disconnect() *)
| SetEQ (options_ : Band)
| Destroy
| Play (track_ : option string) (options_ : option PlayOptions)
| Stop
| StateUpdate (state_ : State)
| SetPause (pause_ : bool)
| Pause
| Resume
| Seek (position_ : Z)
| SetVolume (volume : Z)
| OnTrackEnd (reason : string)
| OnTrackException (message : option string)
| OnTrackStuck (message : option string)
| SwitchChannel (channelId_ : string) (reactive : bool)
| UpdateVoiceState (channelId_ : option string) (selfMute selfDeaf : bool).

Definition call (c : Call) (draining : bool) (now : Z) : Method :=
  match c with
  | Connect g s e => connect g s e
  | Disconnect msg => disconnect msg
  | Disconnect_ => _disconnect
  | SetEQ o => setEQ o
  | Destroy => destroy
  | Play tr o => play tr o draining now
  | Stop => stop
  | StateUpdate s => stateUpdate s
  | SetPause b => setPause b
  | Pause => pause
  | Resume => resume
  | Seek z => seek z
  | SetVolume v => setVolume v
  | OnTrackEnd r => onTrackEnd r
  | OnTrackException m => onTrackException m
  | OnTrackStuck m => onTrackStuck m
  | SwitchChannel c r => switchChannel c r
  | UpdateVoiceState c m d => updateVoiceState c m d
  end.

End Player.

(** ** One session and its node, between two turns of the event loop *)

Module Session.

(** A session, the node it is bound to, the next-tick callbacks that were
    scheduled and did not run yet, and the other calls the session made
    on the outside (events emitted, gateway messages, migrations asked). *)
Record t := {
  player : Player.t;
  node : Lavalink.t;
  ticks : list Player.Tick;
  others : list Player.Effect
}.

Definition perform (s : t) (e : Player.Effect) : t :=
  match e with
  | Player.Send data =>
      {| player := player s; node := Lavalink.send data (node s);
         ticks := ticks s; others := others s |}
  | Player.NextTick k =>
      {| player := player s; node := node s;
         ticks := ticks s ++ [k]; others := others s |}
  | _ =>
      {| player := player s; node := node s;
         ticks := ticks s; others := others s ++ [e] |}
  end.

(** Runs a method of the session and what it does on the outside. *)
Definition invoke (m : Player.Method) (s : t) : t :=
  let '(p, es) := m (player s) in
  fold_left perform es
    {| player := p; node := node s; ticks := ticks s; others := others s |}.

(** The oldest next-tick callback runs. *)
Definition nextTick (s : t) : t :=
  match ticks s with
  | [] => s
  | k :: rest =>
      let s := {| player := player s; node := node s;
                  ticks := rest; others := others s |} in
      match k with
      | Player.CheckEventQueue => invoke Player.checkEventQueue s
      | Player.EmitLater e a => perform s (Player.Emit e a)
      end
  end.

Inductive Action :=
| Call (c : Player.Call) (now : Z)   (* the application calls a method *)
| Tick.                              (* the event loop runs a next-tick callback *)

Definition step (s : t) (a : Action) : t :=
  match a with
  | Call c now => invoke (Player.call c (Lavalink.draining (node s)) now) s
  | Tick => nextTick s
  end.

Definition run (l : list Action) (s : t) : t := fold_left step l s.



Definition commands_of (guildId : string) (paused : bool) (c : Player.Call)
  : list Payload :=
  match c with
  | Player.Connect g s e => [OpVoiceUpdate g s e]
  | Player.Play tr o => [OpPlay guildId tr o]
  | Player.Stop => [OpStop guildId]
  | Player.SetPause b => [OpPause guildId b]
  | Player.Seek z => [OpSeek guildId z]
  | Player.SetVolume v => [OpVolume guildId v]
  | Player.Disconnect_ =>
      (if paused then [OpPause guildId false] else [])
        ++ [OpDestroy guildId; OpStop guildId]
  | _ => []
  end.

Definition paused_after (paused : bool) (c : Player.Call) : bool :=
  match c with
  | Player.SetPause b => b
  | Player.Disconnect_ => false
  | _ => paused
  end.



End Session.

(** The command queue as the design document words it: every command is
    appended to a FIFO; it is sent at once if the FIFO was empty and waits
    otherwise; when a send completes the front is popped and the next
    command, if any, is sent. *)

Module DocumentedQueue.

Record t := {
  fifo : list Payload;
  sent : list Payload
}.


Definition enqueue (s : t) (c : Payload) : t :=
  {| fifo := fifo s ++ [c];
     sent := match fifo s with
             | [] => sent s ++ [c]
             | _ :: _ => sent s
             end |}.

Definition completed (s : t) : t :=
  match fifo s with
  | [] => s
  | _ :: rest =>
      {| fifo := rest;
         sent := sent s ++ firstn 1 rest |}
  end.

Fixpoint run (guildId : string) (paused : bool) (l : list Session.Action)
             (s : t) : t :=
  match l with
  | [] => s
  | Session.Call c _ :: rest =>
      run guildId (Session.paused_after paused c) rest
          (fold_left enqueue (Session.commands_of guildId paused c) s)
  | Session.Tick :: rest => run guildId paused rest (completed s)
  end.

End DocumentedQueue.


(** ** PlayerManager.ts: the coordinator *)

(** An entry of [pendingGuilds]. [promise] stands for the pair [res], [rej]
    of the promise [join] returned; [timeout] is the handle of the timer. *)
Module PendingJoin.
Record t := {
  channelId : string;
  hostname : option string;
  options : JoinOptions;
  player : option nat;
  node : nat;
  promise : nat;
  timeout : option nat
}.

Definition set_timeout (v : option nat) (e : t) : t :=
  {| channelId := channelId e; hostname := hostname e; options := options e;
     player := player e; node := node e; promise := promise e;
     timeout := v |}.
End PendingJoin.

Module PlayerManager.

(** The [options] of the constructor that the methods read later. *)
Record Options := {
  defaultRegion : option string;
  reconnectThreshold : option Z
}.

(** The closures that are registered as listeners. *)
Inductive Closure :=
| UserListener (tag : nat)
    (* a listener of the application *)
| ReadyHandler (guild_id : string) (disconnectHandler : nat)
    (* [readyHandler] of [voiceServerUpdate] *)
| DisconnectHandler (guild_id : string) (readyHandler : nat)
    (* [disconnectHandler] of [voiceServerUpdate] *)
| RestoreEnd (player : nat) (endListeners : list nat).
    (* the [once('end', ...)] callback of [switchNode] *)

(** A failover thunk: [this.switchNode.bind(this, player, leave)]. *)
Record Failover := { f_player : nat; f_leave : bool }.

(** What waits for the promise of a [join]: the application, or the
    [then] and [catch] callbacks of [switchNode], with the variables they
    capture. *)
Inductive Continuation :=
| Caller
| Migration (player : nat) (guildId : string) (track : option string)
            (paused : bool) (position : Z).

Inductive Settlement :=
| Resolved (player : nat)
| Rejected (reason : string).

(** A promise of [join]: every call of its [res] or [rej], oldest first.
    The first one decides the promise; the later ones are ignored by
    JavaScript and kept here to be counted. *)
Record Promise := {
  continuation : Continuation;
  settled : list Settlement
}.

(** The callbacks given to [process.nextTick]. *)
Inductive Tick :=
| PlayerTick (player : nat) (k : Player.Tick)
| SwitchNodeJoin (player : nat) (guildId channelId : string)
                 (track : option string) (paused : bool) (position : Z).

(** The promise jobs: the rest of [join] after its [await], and the
    reactions to a settled promise. *)
Inductive Job :=
| JoinResume (guildId channelId : string) (options : JoinOptions)
             (player : option nat) (node : option nat) (promise : nat)
| Reaction (promise : nat).

(** The callbacks given to [setTimeout]. *)
Inductive TimerTask :=
| JoinTimeout (guildId : string) (promise : nat)
| CheckFailoverQueue
| Reconnect (node : nat).

Record Timer := { handle : nat; due : Z; task : TimerTask }.

(** What the outside of the coordinator observes. *)
Inductive Observation :=
| Gateway (guild_id channel_id : option string) (self_mute self_deaf : bool)
    (* the shard was asked to send a voice state update *)
| Emitted (player : nat) (e : Player.EventName) (arg : option string)
    (* a session emitted an event *)
| Heard (tag : nat) (player : nat) (e : Player.EventName) (arg : option string)
    (* a listener of the application was called *)
| Migrating (player : nat) (leave : bool)
    (* a failover thunk was called *)
| ClientError
    (* the client emitted 'error' *)
| Uncaught (e : string).
    (* an exception left a callback of the event loop *)

(** The coordinator, the objects it shares with its sessions and nodes,
    and the event loop it runs on. *)
Record t := {
  players : list (string * nat);
  nodes : list (string * nat);
  options : Options;
  pendingGuilds : list (string * PendingJoin.t);
  failoverQueue : list Failover;
  failoverRate : Z;
  failoverLimit : Z;
  regions : list (string * list string);
  playerHeap : list Player.t;
  nodeHeap : list Lavalink.t;
  closures : list Closure;
  promises : list Promise;
  now : Z;
  ticks : list Tick;
  jobs : list Job;
  timers : list Timer;
  handles : nat;
  trace : list (Z * Observation)
}.

(** Field updates. *)
Definition set_players (v : list (string * nat)) (w : t) : t :=
  {| players := v; nodes := nodes w; options := options w;
     pendingGuilds := pendingGuilds w; failoverQueue := failoverQueue w;
     failoverRate := failoverRate w; failoverLimit := failoverLimit w;
     regions := regions w; playerHeap := playerHeap w;
     nodeHeap := nodeHeap w; closures := closures w;
     promises := promises w; now := now w; ticks := ticks w;
     jobs := jobs w; timers := timers w; handles := handles w;
     trace := trace w |}.

Definition set_nodes (v : list (string * nat)) (w : t) : t :=
  {| players := players w; nodes := v; options := options w;
     pendingGuilds := pendingGuilds w; failoverQueue := failoverQueue w;
     failoverRate := failoverRate w; failoverLimit := failoverLimit w;
     regions := regions w; playerHeap := playerHeap w;
     nodeHeap := nodeHeap w; closures := closures w;
     promises := promises w; now := now w; ticks := ticks w;
     jobs := jobs w; timers := timers w; handles := handles w;
     trace := trace w |}.

Definition set_pendingGuilds (v : list (string * PendingJoin.t)) (w : t) : t :=
  {| players := players w; nodes := nodes w; options := options w;
     pendingGuilds := v; failoverQueue := failoverQueue w;
     failoverRate := failoverRate w; failoverLimit := failoverLimit w;
     regions := regions w; playerHeap := playerHeap w;
     nodeHeap := nodeHeap w; closures := closures w;
     promises := promises w; now := now w; ticks := ticks w;
     jobs := jobs w; timers := timers w; handles := handles w;
     trace := trace w |}.

Definition set_failoverQueue (v : list Failover) (w : t) : t :=
  {| players := players w; nodes := nodes w; options := options w;
     pendingGuilds := pendingGuilds w; failoverQueue := v;
     failoverRate := failoverRate w; failoverLimit := failoverLimit w;
     regions := regions w; playerHeap := playerHeap w;
     nodeHeap := nodeHeap w; closures := closures w;
     promises := promises w; now := now w; ticks := ticks w;
     jobs := jobs w; timers := timers w; handles := handles w;
     trace := trace w |}.

Definition set_playerHeap (v : list Player.t) (w : t) : t :=
  {| players := players w; nodes := nodes w; options := options w;
     pendingGuilds := pendingGuilds w; failoverQueue := failoverQueue w;
     failoverRate := failoverRate w; failoverLimit := failoverLimit w;
     regions := regions w; playerHeap := v; nodeHeap := nodeHeap w;
     closures := closures w; promises := promises w; now := now w;
     ticks := ticks w; jobs := jobs w; timers := timers w;
     handles := handles w; trace := trace w |}.

Definition set_nodeHeap (v : list Lavalink.t) (w : t) : t :=
  {| players := players w; nodes := nodes w; options := options w;
     pendingGuilds := pendingGuilds w; failoverQueue := failoverQueue w;
     failoverRate := failoverRate w; failoverLimit := failoverLimit w;
     regions := regions w; playerHeap := playerHeap w; nodeHeap := v;
     closures := closures w; promises := promises w; now := now w;
     ticks := ticks w; jobs := jobs w; timers := timers w;
     handles := handles w; trace := trace w |}.

Definition set_closures (v : list Closure) (w : t) : t :=
  {| players := players w; nodes := nodes w; options := options w;
     pendingGuilds := pendingGuilds w; failoverQueue := failoverQueue w;
     failoverRate := failoverRate w; failoverLimit := failoverLimit w;
     regions := regions w; playerHeap := playerHeap w;
     nodeHeap := nodeHeap w; closures := v; promises := promises w;
     now := now w; ticks := ticks w; jobs := jobs w; timers := timers w;
     handles := handles w; trace := trace w |}.

Definition set_promises (v : list Promise) (w : t) : t :=
  {| players := players w; nodes := nodes w; options := options w;
     pendingGuilds := pendingGuilds w; failoverQueue := failoverQueue w;
     failoverRate := failoverRate w; failoverLimit := failoverLimit w;
     regions := regions w; playerHeap := playerHeap w;
     nodeHeap := nodeHeap w; closures := closures w; promises := v;
     now := now w; ticks := ticks w; jobs := jobs w; timers := timers w;
     handles := handles w; trace := trace w |}.

Definition set_now (v : Z) (w : t) : t :=
  {| players := players w; nodes := nodes w; options := options w;
     pendingGuilds := pendingGuilds w; failoverQueue := failoverQueue w;
     failoverRate := failoverRate w; failoverLimit := failoverLimit w;
     regions := regions w; playerHeap := playerHeap w;
     nodeHeap := nodeHeap w; closures := closures w;
     promises := promises w; now := v; ticks := ticks w; jobs := jobs w;
     timers := timers w; handles := handles w; trace := trace w |}.

Definition set_ticks (v : list Tick) (w : t) : t :=
  {| players := players w; nodes := nodes w; options := options w;
     pendingGuilds := pendingGuilds w; failoverQueue := failoverQueue w;
     failoverRate := failoverRate w; failoverLimit := failoverLimit w;
     regions := regions w; playerHeap := playerHeap w;
     nodeHeap := nodeHeap w; closures := closures w;
     promises := promises w; now := now w; ticks := v; jobs := jobs w;
     timers := timers w; handles := handles w; trace := trace w |}.

Definition set_jobs (v : list Job) (w : t) : t :=
  {| players := players w; nodes := nodes w; options := options w;
     pendingGuilds := pendingGuilds w; failoverQueue := failoverQueue w;
     failoverRate := failoverRate w; failoverLimit := failoverLimit w;
     regions := regions w; playerHeap := playerHeap w;
     nodeHeap := nodeHeap w; closures := closures w;
     promises := promises w; now := now w; ticks := ticks w; jobs := v;
     timers := timers w; handles := handles w; trace := trace w |}.

Definition set_timers (v : list Timer) (w : t) : t :=
  {| players := players w; nodes := nodes w; options := options w;
     pendingGuilds := pendingGuilds w; failoverQueue := failoverQueue w;
     failoverRate := failoverRate w; failoverLimit := failoverLimit w;
     regions := regions w; playerHeap := playerHeap w;
     nodeHeap := nodeHeap w; closures := closures w;
     promises := promises w; now := now w; ticks := ticks w;
     jobs := jobs w; timers := v; handles := handles w;
     trace := trace w |}.

Definition set_handles (v : nat) (w : t) : t :=
  {| players := players w; nodes := nodes w; options := options w;
     pendingGuilds := pendingGuilds w; failoverQueue := failoverQueue w;
     failoverRate := failoverRate w; failoverLimit := failoverLimit w;
     regions := regions w; playerHeap := playerHeap w;
     nodeHeap := nodeHeap w; closures := closures w;
     promises := promises w; now := now w; ticks := ticks w;
     jobs := jobs w; timers := timers w; handles := v; trace := trace w |}.

Definition set_trace (v : list (Z * Observation)) (w : t) : t :=
  {| players := players w; nodes := nodes w; options := options w;
     pendingGuilds := pendingGuilds w; failoverQueue := failoverQueue w;
     failoverRate := failoverRate w; failoverLimit := failoverLimit w;
     regions := regions w; playerHeap := playerHeap w;
     nodeHeap := nodeHeap w; closures := closures w;
     promises := promises w; now := now w; ticks := ticks w;
     jobs := jobs w; timers := timers w; handles := handles w;
     trace := v |}.

(** *** The monad of the methods *)

Inductive Outcome (A : Type) :=
| Returned (a : A)
| Thrown (e : string).
Arguments Returned {A} a.
Arguments Thrown {A} e.

Definition M (A : Type) : Type := t -> Outcome A * t.

Definition ret {A} (a : A) : M A := fun w => (Returned a, w).

Definition bind {A B} (c : M A) (k : A -> M B) : M B :=
  fun w =>
    match c w with
    | (Returned a, w') => k a w'
    | (Thrown e, w') => (Thrown e, w')
    end.

Definition throw {A} (e : string) : M A := fun w => (Thrown e, w).
Definition gets {A} (f : t -> A) : M A := fun w => (Returned (f w), w).
Definition modify (f : t -> t) : M unit := fun w => (Returned tt, f w).

(** [try { c } catch (e) { h e }]. *)
Definition catch {A} (c : M A) (h : string -> M A) : M A :=
  fun w =>
    match c w with
    | (Returned a, w') => (Returned a, w')
    | (Thrown e, w') => h e w'
    end.

Declare Scope manager_scope.
Delimit Scope manager_scope with manager.
Notation "x <- c ;; k" := (bind c (fun x => k))
  (at level 61, c at next level, right associativity) : manager_scope.
Notation "c ;; k" := (bind c (fun _ => k))
  (at level 61, right associativity) : manager_scope.
Local Open Scope manager_scope.

(** [for (let x of l) body(x)]. *)
Fixpoint for_of {A} (l : list A) (body : A -> M unit) : M unit :=
  match l with
  | [] => ret tt
  | x :: rest => body x ;; for_of rest body
  end.

Definition exec {A} (c : M A) (w : t) : t := snd (c w).

Definition observe (o : Observation) : M unit :=
  modify (fun w => set_trace (trace w ++ [(now w, o)]) w).

(** *** Objects *)

Definition getPlayer (r : nat) : M Player.t :=
  fun w =>
    match Js.deref (playerHeap w) r with
    | Some p => (Returned p, w)
    | None => (Thrown "TypeError: player is undefined", w)
    end.

Definition setPlayer (r : nat) (p : Player.t) : M unit :=
  modify (fun w => set_playerHeap (Js.assign (playerHeap w) r p) w).

Definition update_player (r : nat) (f : Player.t -> Player.t) : M unit :=
  p <- getPlayer r ;; setPlayer r (f p).

Definition newPlayer (p : Player.t) : M nat :=
  fun w =>
    let '(h, r) := Js.alloc (playerHeap w) p in
    (Returned r, set_playerHeap h w).

Definition getNode (r : nat) : M Lavalink.t :=
  fun w =>
    match Js.deref (nodeHeap w) r with
    | Some n => (Returned n, w)
    | None => (Thrown "TypeError: node is undefined", w)
    end.

Definition setNode (r : nat) (n : Lavalink.t) : M unit :=
  modify (fun w => set_nodeHeap (Js.assign (nodeHeap w) r n) w).

Definition newNode (n : Lavalink.t) : M nat :=
  fun w =>
    let '(h, r) := Js.alloc (nodeHeap w) n in
    (Returned r, set_nodeHeap h w).

Definition newClosure (c : Closure) : M nat :=
  fun w =>
    let '(h, r) := Js.alloc (closures w) c in
    (Returned r, set_closures h w).

Definition newPromise (k : Continuation) : M nat :=
  fun w =>
    let '(h, r) := Js.alloc (promises w) {| continuation := k; settled := [] |} in
    (Returned r, set_promises h w).

(** A call of [res] or [rej] of a promise: the first one schedules the
    reactions. *)
Definition settle (promise : nat) (s : Settlement) : M unit :=
  modify (fun w =>
    match Js.deref (promises w) promise with
    | None => w
    | Some pr =>
        let w' := set_promises
                    (Js.assign (promises w) promise
                       {| continuation := continuation pr;
                          settled := settled pr ++ [s] |}) w in
        match settled pr with
        | [] => set_jobs (jobs w' ++ [Reaction promise]) w'
        | _ :: _ => w'
        end
    end).

(** [[...this.nodes.values()]] and [Array.from(this.players.values())]. *)
Definition node_values (w : t) : list (nat * Lavalink.t) :=
  flat_map (fun r => match Js.deref (nodeHeap w) r with
                     | Some n => [(r, n)]
                     | None => []
                     end) (Js.values (nodes w)).

Definition player_values (w : t) : list (nat * Player.t) :=
  flat_map (fun r => match Js.deref (playerHeap w) r with
                     | Some p => [(r, p)]
                     | None => []
                     end) (Js.values (players w)).

(** *** Timers and the next-tick queue *)

Definition setTimeout (k : TimerTask) (delay : Z) : M nat :=
  fun w =>
    (Returned (handles w),
     set_timers (timers w ++ [{| handle := handles w; due := now w + delay;
                                 task := k |}])
                (set_handles (S (handles w)) w)).

Definition clearTimeout (h : nat) : M unit :=
  modify (fun w =>
    set_timers (filter (fun tm => negb (Nat.eqb (handle tm) h)) (timers w)) w).

Definition nextTick (k : Tick) : M unit :=
  modify (fun w => set_ticks (ticks w ++ [k]) w).

Definition enqueueJob (j : Job) : M unit :=
  modify (fun w => set_jobs (jobs w ++ [j]) w).


(** *** Listeners *)

Definition pending (guild_id : string) : M (option PendingJoin.t) :=
  gets (fun w => Js.get guild_id (pendingGuilds w)).

Definition delete_pending (guild_id : string) : M unit :=
  modify (fun w => set_pendingGuilds (Js.delete guild_id (pendingGuilds w)) w).

(** [disconnectHandler] of [voiceServerUpdate]. *)
Definition disconnectHandler (guild_id : string) (readyHandler : nat) : M unit :=
  player <- gets (fun w => Js.get guild_id (players w)) ;;
  entry <- pending guild_id ;;
  match entry with
  | None =>
      match player with
      | Some r => update_player r (Player.removeListener Player.EvReady readyHandler)
      | None => ret tt
      end
  | Some _ =>
      match player with
      | None => throw "TypeError: Cannot read property 'removeListener' of undefined"
      | Some r =>
          update_player r (Player.removeListener Player.EvReady readyHandler) ;;
          entry <- pending guild_id ;;
          match entry with
          | None => throw "TypeError: Cannot read property 'rej' of undefined"
          | Some e =>
              settle (PendingJoin.promise e) (Rejected "Disconnected") ;;
              delete_pending guild_id
          end
      end
  end.

(** [readyHandler] of [voiceServerUpdate]. *)
Definition readyHandler (guild_id : string) (disconnectHandler : nat) : M unit :=
  player <- gets (fun w => Js.get guild_id (players w)) ;;
  entry <- pending guild_id ;;
  match entry with
  | None =>
      match player with
      | Some r =>
          update_player r (Player.removeListener Player.EvDisconnect disconnectHandler)
      | None => ret tt
      end
  | Some _ =>
      match player with
      | None => throw "TypeError: Cannot read property 'removeListener' of undefined"
      | Some r =>
          update_player r (Player.removeListener Player.EvDisconnect disconnectHandler) ;;
          entry <- pending guild_id ;;
          match entry with
          | None => throw "TypeError: Cannot read property 'res' of undefined"
          | Some e =>
              settle (PendingJoin.promise e) (Resolved r) ;;
              delete_pending guild_id
          end
      end
  end.

(** A registered function is called by [emit]. *)
Definition call_closure (f self : nat) (e : Player.EventName)
                        (arg : option string) : M unit :=
  c <- gets (fun w => Js.deref (closures w) f) ;;
  match c with
  | None => throw "TypeError: listener is not a function"
  | Some (UserListener tag) => observe (Heard tag self e arg)
  | Some (ReadyHandler guild_id d) => readyHandler guild_id d
  | Some (DisconnectHandler guild_id r) => disconnectHandler guild_id r
  | Some (RestoreEnd player endListeners) =>
      for_of endListeners
             (fun listener => update_player player (Player.on Player.EvEnd listener))
  end.

(** [player.emit(e, arg)]: the listeners registered when the call starts
    are called in order; a [once] wrapper removes itself first. An 'error'
    event without a listener throws. *)
Definition emit (r : nat) (e : Player.EventName) (arg : option string) : M unit :=
  p <- getPlayer r ;;
  match e, Player.registered e p with
  | Player.EvError, [] => throw "Unhandled error."
  | _, regs =>
      observe (Emitted r e arg) ;;
      for_of regs
        (fun reg =>
           (if Player.once_ reg
            then update_player r (Player.remove_wrapper e (Player.fn reg))
            else ret tt) ;;
           call_closure (Player.fn reg) r e arg)
  end.

(** *** Calls on a session *)

(** One effect of a method of session [r]; [onSwitchNode] is
    [this.manager.switchNode]. *)
Definition perform (onSwitchNode : nat -> M unit) (r : nat)
                   (e : Player.Effect) : M unit :=
  match e with
  | Player.Send data =>
      p <- getPlayer r ;;
      n <- getNode (Player.node p) ;;
      setNode (Player.node p) (Lavalink.send data n)
  | Player.NextTick k => nextTick (PlayerTick r k)
  | Player.Emit ev arg => emit r ev arg
  | Player.SwitchNode => onSwitchNode r
  | Player.SendWS g c m d => observe (Gateway g c m d)
  end.

Definition invoke (onSwitchNode : nat -> M unit) (r : nat)
                  (m : Player.Method) : M unit :=
  p <- getPlayer r ;;
  let '(p', es) := m p in
  setPlayer r p' ;;
  for_of es (perform onSwitchNode r).

(** For the methods that never reach [this.manager.switchNode]. *)
Definition invoke_plain : nat -> Player.Method -> M unit :=
  invoke (fun _ => ret tt).

(** *** Node selection *)

(** [findIdealNode(region)] over the values of [this.nodes]. *)
Definition idealNode (region : string) (all : list (nat * Lavalink.t))
  : option (nat * Lavalink.t) :=
  let nodes :=
    filter (fun '(_, node) =>
              negb (Lavalink.draining node)
              && (match Lavalink.ws node with Some _ => true | None => false end)
              && Lavalink.connected node) all in
  let nodes :=
    if Js.truthy_str region
    then
      let regionalNodes :=
        filter (fun '(_, node) => Js.seq_ostr (Lavalink.region node) (Some region))
               nodes in
      if (0 <? List.length regionalNodes)%nat then regionalNodes else nodes
    else nodes in
  let nodes :=
    Js.sort (fun a b =>
               let aload := Lavalink.load (snd a) in
               let bload := Lavalink.load (snd b) in
               (aload - bload)%Q) nodes in
  hd_error nodes.

Definition idealNodeOf (region : string) (w : t) : option nat :=
  option_map fst (idealNode region (node_values w)).

Definition findIdealNode (region : string) : M (option nat) :=
  gets (idealNodeOf region).

(** [getRegionFromData(endpoint)]. *)
Fixpoint regionOf (endpoint : string) (all : list (nat * Lavalink.t))
                  (regions_ : list (string * list string)) : option string :=
  match regions_ with
  | [] => None
  | (key, names) :: rest =>
      let nodes :=
        filter (fun '(_, n) => Js.seq_ostr (Lavalink.region n) (Some key)) all in
      if (List.length nodes =? 0)%nat then regionOf endpoint all rest
      else if negb (existsb (fun '(_, n) =>
                               Lavalink.connected n && negb (Lavalink.draining n))
                            nodes)
      then regionOf endpoint all rest
      else if existsb (fun region => Js.startsWith endpoint region) names
      then Some key
      else regionOf endpoint all rest
  end.

Definition regionFromData (endpoint : string) (w : t) : string :=
  if negb (Js.truthy_str endpoint)
  then Js.or_ostr (defaultRegion (options w)) "us"
  else
    let endpoint := Js.replace endpoint "vip-" "" in
    match regionOf endpoint (node_values w) (regions w) with
    | Some key => key
    | None => Js.or_ostr (defaultRegion (options w)) "us"
    end.

Definition getRegionFromData (endpoint : string) : M string :=
  gets (regionFromData endpoint).

(** *** Joining *)

(** The end of [join]: no node, or a new entry of [pendingGuilds] with
    its ten-second timer. *)
Definition join_register (guildId channelId : string) (options_ : JoinOptions)
                         (player : option nat) (node : option nat)
                         (promise : nat) : M unit :=
  match node with
  | None => settle promise (Rejected "No available voice nodes.")
  | Some n =>
      h <- setTimeout (JoinTimeout guildId promise) 10000 ;;
      modify (fun w =>
        set_pendingGuilds
          (Js.set guildId
             {| PendingJoin.channelId := channelId;
                PendingJoin.hostname := None;
                PendingJoin.options := options_;
                PendingJoin.player := player;
                PendingJoin.node := n;
                PendingJoin.promise := promise;
                PendingJoin.timeout := Some h |}
             (pendingGuilds w)) w)
  end.

(** The callback of the timer of [join]. *)
Definition joinTimeout (guildId : string) (promise : nat) : M unit :=
  delete_pending guildId ;;
  settle promise (Rejected "Voice connection timeout").

(** [join(guildId, channelId, options, player)], up to its [await]; the
    result is the promise. [k] is what the caller does with it. *)
Definition join (guildId channelId : string) (options_ : option JoinOptions)
                (player : option nat) (k : Continuation) : M nat :=
  promise <- newPromise k ;;
  let options_ := match options_ with
                  | Some o => o
                  | None => {| jo_node := None; jo_region := None |}
                  end in
  player <- match player with
            | Some r => ret (Some r)
            | None => gets (fun w => Js.get guildId (players w))
            end ;;
  switched <- match player with
              | Some r =>
                  p <- getPlayer r ;;
                  if negb (String.eqb (Player.channelId p) channelId)
                  then invoke_plain r (Player.switchChannel channelId false) ;;
                       settle promise (Resolved r) ;;
                       ret true
                  else ret false
              | None => ret false
              end ;;
  if switched : bool then ret promise
  else
    match Js.or_null (jo_node options_) with
    | Some host =>
        node <- gets (fun w => Js.get host (nodes w)) ;;
        match node with
        | None =>
            settle promise
                   (Rejected "TypeError: Cannot read property 'region' of undefined") ;;
            ret promise
        | Some n =>
            join_register guildId channelId options_ player (Some n) promise ;;
            ret promise
        end
    | None =>
        region <- getRegionFromData (Js.or_ostr (jo_region options_) "us") ;;
        node <- findIdealNode region ;;
        enqueueJob (JoinResume guildId channelId options_ player node promise) ;;
        ret promise
    end.

(** The voice server update of the gateway. *)
Record VoiceServerUpdate := {
  guild_id : string;
  endpoint : string;
  token : string;
  session_id : string;
  shard : Shard.t
}.

(** [voiceServerUpdate(data)], from the computation of [channelId] on. *)
Definition voiceServerUpdate_connect (data : VoiceServerUpdate) (r : nat) : M unit :=
  p <- getPlayer r ;;
  entry <- pending (guild_id data) ;;
  channelId <- (if Js.truthy_str (Player.channelId p)
                then ret (Player.channelId p)
                else match entry with
                     | Some e => ret (PendingJoin.channelId e)
                     | None =>
                         throw "TypeError: Cannot read property 'channelId' of undefined"
                     end) ;;
  if negb (Js.truthy_str channelId)
  then
    match entry with
    | Some _ =>
        delete_pending (guild_id data) ;;
        entry <- pending (guild_id data) ;;
        match entry with
        | Some e => settle (PendingJoin.promise e) (Rejected "Invalid Channel ID")
        | None => throw "TypeError: Cannot read property 'rej' of undefined"
        end
    | None => ret tt
    end
  else
    invoke_plain r
      (Player.connect (guild_id data) (session_id data)
         {| ve_endpoint := endpoint data;
            ve_guild_id := guild_id data;
            ve_token := token data |}) ;;
    d <- gets (fun w => List.length (closures w)) ;;
    disconnectHandler <- newClosure (DisconnectHandler (guild_id data) (S d)) ;;
    readyHandler <- newClosure (ReadyHandler (guild_id data) disconnectHandler) ;;
    update_player r (Player.once Player.EvReady readyHandler) ;;
    update_player r (Player.once Player.EvDisconnect disconnectHandler).

(** [voiceServerUpdate(data)]. *)
Definition voiceServerUpdate (data : VoiceServerUpdate) : M unit :=
  entry <- pending (guild_id data) ;;
  match entry with
  | Some e =>
      match PendingJoin.timeout e with
      | Some h =>
          clearTimeout h ;;
          modify (fun w =>
            set_pendingGuilds
              (Js.set (guild_id data) (PendingJoin.set_timeout None e)
                      (pendingGuilds w)) w)
      | None => ret tt
      end
  | None => ret tt
  end ;;
  player <- gets (fun w => Js.get (guild_id data) (players w)) ;;
  match player with
  | Some r => voiceServerUpdate_connect data r
  | None =>
      entry <- pending (guild_id data) ;;
      match entry with
      | None => ret tt
      | Some e =>
          match PendingJoin.player e with
          | Some r =>
              update_player r (Player.set_hostname (PendingJoin.hostname e)) ;;
              update_player r (Player.set_node (PendingJoin.node e)) ;;
              modify (fun w => set_players (Js.set (guild_id data) r (players w)) w) ;;
              voiceServerUpdate_connect data r
          | None =>
              t0 <- gets now ;;
              r <- newPlayer
                     (Player.new (guild_id data)
                        {| Player.d_channelId := PendingJoin.channelId e;
                           Player.d_guildId := guild_id data;
                           Player.d_hostname := PendingJoin.hostname e;
                           Player.d_node := PendingJoin.node e;
                           Player.d_shard := shard data;
                           Player.d_options := Some (PendingJoin.options e) |}
                        t0) ;;
              modify (fun w => set_players (Js.set (guild_id data) r (players w)) w) ;;
              voiceServerUpdate_connect data r
          end
      end
  end.


(** *** Migration and the failover queue *)

(** [switchNode(player, leave)], up to its [process.nextTick]. *)
Definition switchNode (player : nat) (leave : bool) : M unit :=
  p <- getPlayer player ;;
  let guildId := Player.guildId p in
  let channelId := Player.channelId p in
  let track := Player.track p in
  let paused := Player.paused p in
  threshold <- gets (fun w => Js.or_num (reconnectThreshold (options w)) 2000) ;;
  let position := Js.or_num (Player.position (Player.state p)) 0 + threshold in
  let listeners := Player.listeners_of Player.EvEnd p in
  for_of listeners
    (fun listener => update_player player (Player.removeListener Player.EvEnd listener)) ;;
  let endListeners := listeners in
  restore <- newClosure (RestoreEnd player endListeners) ;;
  update_player player (Player.once Player.EvEnd restore) ;;
  modify (fun w => set_players (Js.delete guildId (players w)) w) ;;
  update_player player (Player.set_playing false) ;;
  (if leave
   then invoke_plain player (Player.updateVoiceState None false false)
   else ret tt) ;;
  nextTick (SwitchNodeJoin player guildId channelId track paused position).

(** A call of a method of a session by the coordinator or the
    application: [play] reads [this.node.draining], and on a draining node
    comes back to [switchNode]; [Date.now()] is the time of the world. *)
Definition call (r : nat) (c : Player.Call) : M unit :=
  p <- getPlayer r ;;
  draining <- match c with
              | Player.Play _ _ =>
                  n <- getNode (Player.node p) ;; ret (Lavalink.draining n)
              | _ => ret false
              end ;;
  t0 <- gets now ;;
  invoke (fun r' => switchNode r' false) r (Player.call c draining t0).

(** The next-tick callback of [switchNode]: the call of [join]; its
    [then] and [catch] are the [Migration] continuation. *)
Definition switchNode_join (player : nat) (guildId channelId : string)
                           (track : option string) (paused : bool)
                           (position : Z) : M unit :=
  _ <- join guildId channelId None (Some player)
            (Migration player guildId track paused position) ;;
  ret tt.

(** The [then] callback of [switchNode]; [player] is the session the
    promise resolved with. *)
Definition switchNode_then (player : nat) (guildId : string)
                           (track : option string) (paused : bool)
                           (position : Z) : M unit :=
  (if paused then call player Player.Pause else ret tt) ;;
  call player (Player.Play track (Some {| startTime := Some position;
                                          endTime := None |})) ;;
  emit player Player.EvReconnect None ;;
  modify (fun w => set_players (Js.set guildId player (players w)) w).

(** The [catch] callback of [switchNode]; [player] is the session that
    was migrating. *)
Definition switchNode_catch (player : nat) : M unit :=
  call player (Player.Disconnect None).

(** [processQueue(fn)]. *)
Definition processQueue (fn : Failover) : M unit :=
  observe (Migrating (f_player fn) (f_leave fn)) ;;
  switchNode (f_player fn) (f_leave fn) ;;
  rate <- gets failoverRate ;;
  _ <- setTimeout CheckFailoverQueue rate ;;
  ret tt.

(** [checkFailoverQueue()]. *)
Definition checkFailoverQueue : M unit :=
  queue <- gets failoverQueue ;;
  if (0 <? List.length queue)%nat
  then
    limit <- gets (fun w => Z.to_nat (failoverLimit w)) ;;
    let fns := firstn limit queue in
    modify (set_failoverQueue (skipn limit queue)) ;;
    for_of fns processQueue
  else ret tt.

(** [queueFailover(fn)]. *)
Definition queueFailover (fn : Failover) : M unit :=
  queue <- gets failoverQueue ;;
  if (0 <? List.length queue)%nat
  then modify (set_failoverQueue (queue ++ [fn]))
  else processQueue fn.

(** The sessions [onDisconnect(node)] selects. *)
Definition on_node (w : t) (host : string) : list (nat * Player.t) :=
  filter (fun '(_, player) =>
            match Js.deref (nodeHeap w) (Player.node player) with
            | Some n => String.eqb (Lavalink.host n) host
            | None => false
            end) (player_values w).

(** [onDisconnect(node)]. *)
Definition onDisconnect (node : nat) : M unit :=
  n <- getNode node ;;
  players_ <- gets (fun w => on_node w (Lavalink.host n)) ;;
  for_of players_
    (fun '(player, _) => queueFailover {| f_player := player; f_leave := true |}).

(** The sessions [shardReady(id)] selects. *)
Definition on_shard (w : t) (id : Z) : list (nat * Player.t) :=
  filter (fun '(_, player) =>
            match Shard.id (Player.shard player) with
            | Some i => Js.truthy_num i && (i =? id)
            | None => false
            end) (player_values w).

(** [shardReady(id)]. *)
Definition shardReady (id : Z) : M unit :=
  players_ <- gets (fun w => on_shard w id) ;;
  for_of players_
    (fun '(player, _) => queueFailover {| f_player := player; f_leave := false |}).

(** [leave(guildId)]. *)
Definition leave (guildId : string) : M unit :=
  player <- gets (fun w => Js.get guildId (players w)) ;;
  match player with
  | None => ret tt
  | Some r =>
      invoke_plain r Player._disconnect ;;
      modify (fun w => set_players (Js.delete guildId (players w)) w)
  end.

(** *** Nodes *)

(** What a node does on the outside: the coordinator listens to its
    'disconnect' and 'error' events. Its 'message' listener is
    [onMessage.bind(this, node)]: the parameter [message] of [onMessage]
    is the node, which has no [op], and the method returns. *)
Definition node_effect (node : nat) (e : Lavalink.Effect) : M unit :=
  match e with
  | Lavalink.Emit Lavalink.EvDisconnect => onDisconnect node
  | Lavalink.Emit (Lavalink.EvError _) => observe ClientError
  | Lavalink.Emit _ => ret tt
  | Lavalink.SetTimeout delay => _ <- setTimeout (Reconnect node) delay ;; ret tt
  | Lavalink.ClearTimeout =>
      modify (fun w =>
        set_timers
          (filter (fun tm => match task tm with
                             | Reconnect n' => negb (Nat.eqb n' node)
                             | _ => true
                             end) (timers w)) w)
  | Lavalink.CloseSocket => ret tt
  end.

Definition node_method (node : nat) (m : Lavalink.t -> Lavalink.t * list Lavalink.Effect)
  : M unit :=
  n <- getNode node ;;
  let '(n', es) := m n in
  setNode node n' ;;
  for_of es (node_effect node).

(** [createNode(options)]. *)
Definition createNode (o : Lavalink.Options) : M unit :=
  node <- newNode (Lavalink.new o) ;;
  modify (fun w => set_nodes (Js.set (Lavalink.o_host o) node (nodes w)) w).

(** [removeNode(host)]. *)
Definition removeNode (host : string) : M unit :=
  node <- gets (fun w => Js.get host (nodes w)) ;;
  if negb (Js.truthy_str host) then ret tt
  else
    match node with
    | None => throw "TypeError: Cannot read property 'destroy' of undefined"
    | Some r =>
        node_method r Lavalink.destroy ;;
        modify (fun w => set_nodes (Js.delete host (nodes w)) w) ;;
        onDisconnect r
    end.

(** The socket of a node opens, or closes. *)
Definition socket_open (node : nat) : M unit :=
  node_method node Lavalink.ready.

Definition socket_close (node : nat) : M unit :=
  n <- getNode node ;;
  match Lavalink.ws n with
  | Some s =>
      if Lavalink.closeListener s then node_method node Lavalink.disconnected
      else ret tt
  | None => ret tt
  end.

(** *** The event loop *)

(** The reactions to the promise of a [join]. [then(f).catch(g)]: [g]
    also runs when [f] throws. *)
Definition reaction (promise : nat) : M unit :=
  pr <- gets (fun w => Js.deref (promises w) promise) ;;
  match pr with
  | Some {| continuation := Migration player guildId track paused position;
            settled := Resolved r :: _ |} =>
      catch (switchNode_then r guildId track paused position)
            (fun _ => switchNode_catch player)
  | Some {| continuation := Migration player _ _ _ _;
            settled := Rejected _ :: _ |} =>
      switchNode_catch player
  | _ => ret tt
  end.

Definition run_tick (k : Tick) : M unit :=
  match k with
  | PlayerTick r Player.CheckEventQueue => invoke_plain r Player.checkEventQueue
  | PlayerTick r (Player.EmitLater e arg) => emit r e arg
  | SwitchNodeJoin player guildId channelId track paused position =>
      switchNode_join player guildId channelId track paused position
  end.

Definition run_job (j : Job) : M unit :=
  match j with
  | JoinResume guildId channelId options_ player node promise =>
      join_register guildId channelId options_ player node promise
  | Reaction promise => reaction promise
  end.

Definition run_timer (k : TimerTask) : M unit :=
  match k with
  | JoinTimeout guildId promise => joinTimeout guildId promise
  | CheckFailoverQueue => checkFailoverQueue
  | Reconnect node => node_method node Lavalink.reconnect
  end.

(** A callback of the event loop: an exception that leaves it is
    reported and the loop goes on. *)
Definition callback (c : M unit) (w : t) : t :=
  match c w with
  | (Returned _, w') => w'
  | (Thrown e, w') => exec (observe (Uncaught e)) w'
  end.

(** The next-tick queue is emptied, then the queue of promise jobs, and
    again while the jobs scheduled next-tick callbacks. *)
Inductive Phase := NextTicks | PromiseJobs.

Fixpoint drain_from (phase : Phase) (fuel : nat) (w : t) : t :=
  match fuel with
  | O => w
  | S fuel' =>
      match phase with
      | NextTicks =>
          match ticks w with
          | k :: rest =>
              drain_from NextTicks fuel' (callback (run_tick k) (set_ticks rest w))
          | [] =>
              match jobs w with
              | [] => w
              | _ :: _ => drain_from PromiseJobs fuel' w
              end
          end
      | PromiseJobs =>
          match jobs w with
          | j :: rest =>
              drain_from PromiseJobs fuel' (callback (run_job j) (set_jobs rest w))
          | [] =>
              match ticks w with
              | [] => w
              | _ :: _ => drain_from NextTicks fuel' w
              end
          end
      end
  end.

Definition drain : nat -> t -> t := drain_from NextTicks.

(** Nothing is left to run before the next timer or input. *)
Definition idle (w : t) : bool :=
  match ticks w, jobs w with
  | [], [] => true
  | _, _ => false
  end.

(** The first timer of the earliest due time, if it is due by [deadline]. *)
Fixpoint earliest (l : list Timer) : option Timer :=
  match l with
  | [] => None
  | tm :: rest =>
      match earliest rest with
      | Some tm' => if due tm' <? due tm then Some tm' else Some tm
      | None => Some tm
      end
  end.

(** Time passes until [deadline]: the timers that are due fire in the
    order of their due times, each in a turn of its own. *)
Fixpoint elapse (fuel : nat) (deadline : Z) (w : t) : t :=
  match fuel with
  | O => w
  | S fuel' =>
      match earliest (timers w) with
      | Some tm =>
          if due tm <=? deadline
          then
            let w := set_timers
                       (filter (fun x => negb (Nat.eqb (handle x) (handle tm)))
                               (timers w))
                       (set_now (Z.max (now w) (due tm)) w) in
            elapse fuel' deadline (drain fuel (callback (run_timer (task tm)) w))
          else set_now (Z.max (now w) deadline) w
      | None => set_now (Z.max (now w) deadline) w
      end
  end.

(** What reaches the coordinator from the outside, each in a turn of the
    event loop. *)
Inductive Input :=
| Join (guildId channelId : string) (options_ : option JoinOptions)
| VoiceServerUpdate_ (data : VoiceServerUpdate)
| Leave (guildId : string)
| ShardReady (id : Z)
| NodeDisconnect (node : nat)       (* the node emits 'disconnect' *)
| SocketOpen (node : nat)
| SocketClose (node : nat)
| CreateNode (o : Lavalink.Options)
| RemoveNode (host : string)
| PlayerCall (player : nat) (c : Player.Call)
| Listen (player : nat) (e : Player.EventName) (tag : nat)  (* player.on(e, listener) *)
| Wait (ms : Z).

Definition input (i : Input) : M unit :=
  match i with
  | Join g c o => _ <- join g c o None Caller ;; ret tt
  | VoiceServerUpdate_ data => voiceServerUpdate data
  | Leave g => leave g
  | ShardReady id => shardReady id
  | NodeDisconnect node => onDisconnect node
  | SocketOpen node => socket_open node
  | SocketClose node => socket_close node
  | CreateNode o => createNode o
  | RemoveNode host => removeNode host
  | PlayerCall r c => call r c
  | Listen r e tag =>
      f <- newClosure (UserListener tag) ;;
      update_player r (Player.on e f)
  | Wait _ => ret tt
  end.

(** One turn: the input, then the queues of the loop. *)
Definition turn (fuel : nat) (w : t) (i : Input) : t :=
  match i with
  | Wait ms => elapse fuel (now w + ms) w
  | _ => drain fuel (callback (input i) w)
  end.

Definition run (fuel : nat) (l : list Input) (w : t) : t :=
  fold_left (turn fuel) l w.

(** The constructor, for the node options given; the client and the
    shard-ready listener are the outside. *)
Record Config := {
  c_defaultRegion : option string;
  c_failoverRate : option Z;
  c_failoverLimit : option Z;
  c_reconnectThreshold : option Z;
  c_regions : option (list (string * list string))
}.

Definition defaultRegions : list (string * list string) :=
  [("asia", ["hongkong"; "singapore"; "sydney"]);
   ("eu", ["eu"; "amsterdam"; "frankfurt"; "russia"]);
   ("us", ["us"; "brazil"])].

Definition new (nodes_ : list Lavalink.Options) (c : Config) : t :=
  exec (for_of nodes_ createNode)
    {| players := []; nodes := [];
       options := {| defaultRegion := c_defaultRegion c;
                     reconnectThreshold := c_reconnectThreshold c |};
       pendingGuilds := []; failoverQueue := [];
       failoverRate := Js.or_num (c_failoverRate c) 250;
       failoverLimit := Js.or_num (c_failoverLimit c) 1;
       regions := match c_regions c with
                  | Some r => r
                  | None => defaultRegions
                  end;
       playerHeap := []; nodeHeap := []; closures := []; promises := [];
       now := 0; ticks := []; jobs := []; timers := []; handles := O;
       trace := [] |}.

(** *** Messages of the nodes *)

(** A message of a node, once parsed: the fields [onMessage] reads.
    [m_label] stands for the message object where it is handed to the
    listeners of a session ([onTrackEnd] hands them its reason). *)
Record Message := {
  m_op : option string;
  m_guildId : string;
  m_type : option string;
  m_state : Player.State;
  m_reason : string;
  m_label : option string
}.

(** What [onMessage] is called with. The listener [createNode] registers
    for the 'message' event of a node is [onMessage.bind(this, node)]:
    the node comes first, before the parsed message the node emitted. *)
Inductive Received :=
| Parsed (m : Message)
| Bound (node : nat).

(** [`Unexpected event type: ${message.type}`]. *)
Definition unexpected (type : option string) : string :=
  String.append "Unexpected event type: "
                (match type with Some t => t | None => "undefined" end).

(** [onMessage(message)]. A node has no [op]. *)
Definition onMessage (message : Received) : M unit :=
  match message with
  | Bound _ => ret tt
  | Parsed m =>
      match Js.or_null (m_op m) with
      | None => ret tt
      | Some op =>
          if String.eqb op "playerUpdate"
          then
            player <- gets (fun w => Js.get (m_guildId m) (players w)) ;;
            match player with
            | None => ret tt
            | Some r => call r (Player.StateUpdate (m_state m))
            end
          else if String.eqb op "event"
          then
            player <- gets (fun w => Js.get (m_guildId m) (players w)) ;;
            match player with
            | None => ret tt
            | Some r =>
                if Js.seq_ostr (m_type m) (Some "TrackEndEvent")
                then call r (Player.OnTrackEnd (m_reason m))
                else if Js.seq_ostr (m_type m) (Some "TrackExceptionEvent")
                then call r (Player.OnTrackException (m_label m))
                else if Js.seq_ostr (m_type m) (Some "TrackStuckEvent")
                then call r (Player.OnTrackStuck (m_label m))
                else emit r Player.EvWarn (Some (unexpected (m_type m)))
            end
          else ret tt
      end
  end.

(** The listener of the 'message' event of [node], called with the
    message the node parsed. *)
Definition messageListener (node : nat) (data : Message) : M unit :=
  onMessage (Bound node).

End PlayerManager.

(** Node selection as the design document words it: the candidates are the
    nodes that are not draining and connected, narrowed to the region
    supplied unless no regional node qualifies; the choice is a candidate of
    the lowest load, or none when there is no candidate. *)

Module DocumentedSelection.






End DocumentedSelection.

(** ** Scenarios and auxiliary definitions of the properties *)

(** The wait the design document announces for attempt [n]. *)
Definition announced_wait (n : Z) : Z := (Z.min (n - 1) 5 + 5) ^ 2 * 1000.

(** The wait [retryInterval] computes when the retry counter is [r]. *)
Definition computed_wait (r : Z) : Z := (Z.min (r - 1) 5 + 5) ^ 2 * 1000.

(** A node with the default options, once its socket opened. *)
Definition default_node : Lavalink.t :=
  fst (Lavalink.ready
         (Lavalink.new {| Lavalink.o_host := "localhost";
                          Lavalink.o_port := None;
                          Lavalink.o_region := None;
                          Lavalink.o_timeout := None |})).



(** A session of guild "g1" on a connected node. *)
Definition data_g1 : Player.Data :=
  {| Player.d_channelId := "c1"; Player.d_guildId := "g1";
     Player.d_hostname := None; Player.d_node := O;
     Player.d_shard := {| Shard.id := Some 0; Shard.sendWS := true |};
     Player.d_options := None |}.



(** A node that is connected has a socket: [ready] is the only method
    that sets [connected], [disconnected] the only one that drops the
    socket, and it clears [connected]. *)
Definition has_socket (n : Lavalink.t) : Prop :=
  Lavalink.connected n = true -> Lavalink.ws n <> None.




(** *** Scenarios of the coordinator *)

(** The constructor options left out. *)
Definition defaults : PlayerManager.Config :=
  {| PlayerManager.c_defaultRegion := None;
     PlayerManager.c_failoverRate := None;
     PlayerManager.c_failoverLimit := None;
     PlayerManager.c_reconnectThreshold := None;
     PlayerManager.c_regions := None |}.

Definition node_options (host region : string) : Lavalink.Options :=
  {| Lavalink.o_host := host; Lavalink.o_port := None;
     Lavalink.o_region := Some region; Lavalink.o_timeout := None |}.

(** The voice server update of guild [g], from shard [s]. *)
Definition update_from (s : Z) (g : string) : PlayerManager.VoiceServerUpdate :=
  {| PlayerManager.guild_id := g;
     PlayerManager.endpoint := "us-east1.discord.gg";
     PlayerManager.token := "token";
     PlayerManager.session_id := "session";
     PlayerManager.shard := {| Shard.id := Some s; Shard.sendWS := true |} |}.

Definition update : string -> PlayerManager.VoiceServerUpdate := update_from 1.

(** Enough turns of the inner queues for every scenario below: each of them
    ends [idle]. *)
Definition fuel : nat := 64.

(** A pool of one node, "n1" in region "us", connected. *)
Definition pool : PlayerManager.t :=
  PlayerManager.run fuel [PlayerManager.SocketOpen 0]
    (PlayerManager.new [node_options "n1" "us"] defaults).

(** Scenario A: [join("g1", "c1")], then the voice server update. *)
Definition scenario_A : PlayerManager.t :=
  PlayerManager.run fuel
    [PlayerManager.Join "g1" "c1" None;
     PlayerManager.VoiceServerUpdate_ (update "g1")] pool.

(** A join with no channel and the voice server update, and then [ms]
    milliseconds. *)
Definition no_channel_update : PlayerManager.t :=
  PlayerManager.run fuel
    [PlayerManager.Join "g1" "" None;
     PlayerManager.VoiceServerUpdate_ (update "g1")] pool.

Definition no_channel (ms : Z) : PlayerManager.t :=
  PlayerManager.turn fuel no_channel_update (PlayerManager.Wait ms).

(** The settlements of the promise of the [n]-th [join]. *)
Definition settlements (n : nat) (w : PlayerManager.t)
  : list PlayerManager.Settlement :=
  match Js.deref (PlayerManager.promises w) n with
  | Some pr => PlayerManager.settled pr
  | None => []
  end.

(** The exceptions that left a callback. *)
Definition uncaught (w : PlayerManager.t) : list string :=
  flat_map (fun o => match snd o with
                     | PlayerManager.Uncaught e => [e]
                     | _ => []
                     end) (PlayerManager.trace w).

(** The failover thunks that were called: when, for which session, with
    which [leave]. *)
Definition migrations (w : PlayerManager.t) : list (Z * nat * bool) :=
  flat_map (fun o => match snd o with
                     | PlayerManager.Migrating r leave => [(fst o, r, leave)]
                     | _ => []
                     end) (PlayerManager.trace w).

(** Scenario B: [join("g2", "c2")], and ten seconds without a voice server
    update. *)
Definition scenario_B : PlayerManager.t :=
  PlayerManager.run fuel
    [PlayerManager.Join "g2" "c2" None; PlayerManager.Wait 10000] pool.

(** A pool of two nodes of region "us", both connected, and five sessions;
    they are all on "n1", the first of the two idle nodes. *)
Definition five_sessions : PlayerManager.t :=
  PlayerManager.run fuel
    [PlayerManager.SocketOpen 0; PlayerManager.SocketOpen 1;
     PlayerManager.Join "g1" "c1" None; PlayerManager.VoiceServerUpdate_ (update "g1");
     PlayerManager.Join "g2" "c2" None; PlayerManager.VoiceServerUpdate_ (update "g2");
     PlayerManager.Join "g3" "c3" None; PlayerManager.VoiceServerUpdate_ (update "g3");
     PlayerManager.Join "g4" "c4" None; PlayerManager.VoiceServerUpdate_ (update "g4");
     PlayerManager.Join "g5" "c5" None; PlayerManager.VoiceServerUpdate_ (update "g5");
     PlayerManager.Wait 60000]
    (PlayerManager.new [node_options "n1" "us"; node_options "n2" "us"]
       {| PlayerManager.c_defaultRegion := None;
          PlayerManager.c_failoverRate := Some 250;
          PlayerManager.c_failoverLimit := Some 1;
          PlayerManager.c_reconnectThreshold := None;
          PlayerManager.c_regions := None |}).

(** The socket of "n1" closes, and two seconds pass. *)
Definition node_down : PlayerManager.t :=
  PlayerManager.run fuel
    [PlayerManager.SocketClose 0; PlayerManager.Wait 2000] five_sessions.

(** A session of a guild on shard 0 and one of a guild on shard 1. *)
Definition two_shards : PlayerManager.t :=
  PlayerManager.run fuel
    [PlayerManager.Join "g1" "c1" None;
     PlayerManager.VoiceServerUpdate_ (update_from 0 "g1");
     PlayerManager.Join "g2" "c2" None;
     PlayerManager.VoiceServerUpdate_ (update_from 1 "g2")] pool.

(** A computation of the coordinator leaves a component of the world as it
    found it, whether it returns or throws. *)
Definition keeps {X A : Type} (proj : PlayerManager.t -> X)
                 (c : PlayerManager.M A) : Prop :=
  forall w, proj (snd (c w)) = proj w.

(** The five thunks [onDisconnect] queues for the sessions of "n1". *)
Definition five_thunks : list PlayerManager.Failover :=
  map (fun r => {| PlayerManager.f_player := r; PlayerManager.f_leave := true |})
      [0%nat; 1%nat; 2%nat; 3%nat; 4%nat].

(** The session of reference [r], or a new one when there is none. *)
Definition session_at (r : nat) (w : PlayerManager.t) : Player.t :=
  nth r (PlayerManager.playerHeap w) (Player.new "g1" data_g1 0).

(** Scenario A, and then a second [join("g1", "c1")]. *)
Definition joined_twice : PlayerManager.t :=
  PlayerManager.turn fuel scenario_A (PlayerManager.Join "g1" "c1" None).

(** The listeners of 'end' are removed one by one, as [switchNode] does. *)
Definition detach (fns : list nat) (p : Player.t) : Player.t :=
  fold_left (fun q listener => Player.removeListener Player.EvEnd listener q) fns p.



(** Two worlds that differ in the heap of sessions only. *)
Definition same_but_sessions (w w1 : PlayerManager.t) : Prop :=
  PlayerManager.players w1 = PlayerManager.players w
  /\ PlayerManager.nodes w1 = PlayerManager.nodes w
  /\ PlayerManager.options w1 = PlayerManager.options w
  /\ PlayerManager.pendingGuilds w1 = PlayerManager.pendingGuilds w
  /\ PlayerManager.failoverQueue w1 = PlayerManager.failoverQueue w
  /\ PlayerManager.nodeHeap w1 = PlayerManager.nodeHeap w
  /\ PlayerManager.closures w1 = PlayerManager.closures w
  /\ PlayerManager.promises w1 = PlayerManager.promises w
  /\ PlayerManager.now w1 = PlayerManager.now w
  /\ PlayerManager.ticks w1 = PlayerManager.ticks w
  /\ PlayerManager.jobs w1 = PlayerManager.jobs w
  /\ PlayerManager.timers w1 = PlayerManager.timers w
  /\ PlayerManager.handles w1 = PlayerManager.handles w
  /\ PlayerManager.trace w1 = PlayerManager.trace w.

(** The session [switchNode] leaves behind: the listeners of 'end' are
    gone, the one-shot listener [restore] stands for them, and the session
    is not playing. *)
Definition migrating (restore : nat) (p : Player.t) : Player.t :=
  Player.set_playing false
    (Player.once Player.EvEnd restore
       (detach (Player.listeners_of Player.EvEnd p) p)).

(** The position a migration resumes from. *)
Definition resume_position (w : PlayerManager.t) (p : Player.t) : Z :=
  Js.or_num (Player.position (Player.state p)) 0
  + Js.or_num (PlayerManager.reconnectThreshold (PlayerManager.options w)) 2000.

(** The leave [switchNode] sends through the shard. *)
Definition leave_message (w : PlayerManager.t) (p : Player.t) (leave : bool)
  : list (Z * PlayerManager.Observation) :=
  if leave && Shard.sendWS (Player.shard p)
  then [(PlayerManager.now w,
         PlayerManager.Gateway
           (if String.eqb (Player.id p) "call" then None else Some (Player.id p))
           None false false)]
  else [].














(** The node of reference [r]. *)
Definition node_at (r : nat) (w : PlayerManager.t) : Lavalink.t :=
  nth r (PlayerManager.nodeHeap w) default_node.

(** ** Auxiliary definitions of the further properties *)

(** ** The life of a node's socket *)
(** The next [k] redials of a node that is down all fail: everything the
    node does on the outside, in order. *)
Fixpoint redials (k : nat) (n : Lavalink.t) : Lavalink.t * list Lavalink.Effect :=
  match k with
  | O => (n, [])
  | S k' =>
      let '(n1, e1) := Lavalink.reconnect n in
      let '(n2, e2) := Lavalink.disconnected n1 in
      let '(n3, e3) := redials k' n2 in
      (n3, e1 ++ e2 ++ e3)
  end.

(** The socket of [n] closes and the next [k] redials fail. *)
Definition outage (k : nat) (n : Lavalink.t) : Lavalink.t * list Lavalink.Effect :=
  let '(n1, e1) := Lavalink.disconnected n in
  let '(n2, e2) := redials k n1 in
  (n2, e1 ++ e2).

(** The redial after the outage succeeds: the timer fires, and the new
    socket opens. *)
Definition recovery (k : nat) (n : Lavalink.t) : Lavalink.t * list Lavalink.Effect :=
  let '(n1, _) := outage k n in
  let '(n2, e2) := Lavalink.reconnect n1 in
  let '(n3, e3) := Lavalink.ready n2 in
  (n3, e2 ++ e3).


(** A node whose retry counter is [r]. *)
Definition retried (r : Z) : Lavalink.t := Lavalink.set_retries r default_node.

(** The configuration of a node: what no method of the node changes. *)
Definition configuration (n : Lavalink.t)
  : string * Z * option string * bool * Z * Lavalink.Stats :=
  (Lavalink.host n, Lavalink.port n, Lavalink.region n, Lavalink.draining n,
   Lavalink.reconnectTimeout n, Lavalink.stats n).

(** The node is sent the payloads [ds], in order. *)
Definition send_all (ds : list Payload) (n : Lavalink.t) : Lavalink.t :=
  fold_left (fun n0 d => Lavalink.send d n0) ds n.

(** ** The flags and the track of a session *)
(** A session is not both playing and paused. *)
Definition consistent (p : Player.t) : Prop :=
  Player.playing p && Player.paused p = false.

(** A session that plays a track. *)
Definition playing_g1 : Player.t :=
  fst (Player.play (Some "track") None false 1 (Player.new "g1" data_g1 0)).

(** The methods that read [this.track] into [this.lastTrack]. *)
Definition moves_track (c : Player.Call) : bool :=
  match c with
  | Player.Play _ _ | Player.Stop | Player.OnTrackStuck _
  | Player.Disconnect _ | Player.Disconnect_ => true
  | Player.OnTrackEnd reason => negb (String.eqb reason "REPLACED")
  | _ => false
  end.

(** The events a list of effects of a session emits at once. *)
Definition emits (es : list Player.Effect) : list (Player.EventName * option string) :=
  flat_map (fun e => match e with Player.Emit ev arg => [(ev, arg)] | _ => [] end) es.







(** ** Joining a guild that has no session *)
(** [options || {}]. *)
Definition join_options (o : option JoinOptions) : JoinOptions :=
  match o with
  | Some o' => o'
  | None => {| jo_node := None; jo_region := None |}
  end.

(** The entry [join] registers for a guild without a session. *)
Definition new_entry (w : PlayerManager.t) (c : string) (o : JoinOptions) (n : nat)
  : PendingJoin.t :=
  {| PendingJoin.channelId := c;
     PendingJoin.hostname := None;
     PendingJoin.options := o;
     PendingJoin.player := None;
     PendingJoin.node := n;
     PendingJoin.promise := List.length (PlayerManager.promises w);
     PendingJoin.timeout := Some (PlayerManager.handles w) |}.

(** The timer [join] arms for the entry. *)
Definition join_timer (w : PlayerManager.t) (g : string) : PlayerManager.Timer :=
  {| PlayerManager.handle := PlayerManager.handles w;
     PlayerManager.due := PlayerManager.now w + 10000;
     PlayerManager.task :=
       PlayerManager.JoinTimeout g (List.length (PlayerManager.promises w)) |}.

(** What a join leaves alone: the sessions, the nodes and what the outside
    observed. *)
Definition same_sessions_and_nodes (w w' : PlayerManager.t) : Prop :=
  PlayerManager.players w' = PlayerManager.players w
  /\ PlayerManager.playerHeap w' = PlayerManager.playerHeap w
  /\ PlayerManager.nodes w' = PlayerManager.nodes w
  /\ PlayerManager.nodeHeap w' = PlayerManager.nodeHeap w
  /\ PlayerManager.trace w' = PlayerManager.trace w.

(** ** The timer of a join *)
(** Two joins of "g1" on the pool, nine seconds apart, no voice server
    update yet: the entry of "g1" is the one of the second join, and both
    timers are armed. *)
Definition joined_again : PlayerManager.t :=
  PlayerManager.run fuel
    [PlayerManager.Join "g1" "c1" None; PlayerManager.Wait 9000;
     PlayerManager.Join "g1" "c1" None] pool.

(** One more second passes, the voice server update of "g1" comes, and
    nine more seconds pass. *)
Definition update_after_first_timer : PlayerManager.t :=
  PlayerManager.run fuel
    [PlayerManager.Wait 1000; PlayerManager.VoiceServerUpdate_ (update "g1");
     PlayerManager.Wait 9000] joined_again.




(** ** Playing on a draining node *)
(** The session [play] leaves behind when its node is draining. *)
Definition redirected (track : option string) (o : option PlayOptions) (p : Player.t)
  : Player.t :=
  Player.set_state {| Player.position := Some 0 |}
    (Player.set_playOptions o
       (Player.set_track track (Player.set_lastTrack (Player.track p) p))).

(** A node that takes no new session. *)
Definition drained (n : Lavalink.t) : Lavalink.t :=
  {| Lavalink.host := Lavalink.host n; Lavalink.port := Lavalink.port n;
     Lavalink.region := Lavalink.region n; Lavalink.connected := Lavalink.connected n;
     Lavalink.draining := true; Lavalink.retries := Lavalink.retries n;
     Lavalink.reconnectTimeout := Lavalink.reconnectTimeout n;
     Lavalink.reconnectInterval := Lavalink.reconnectInterval n;
     Lavalink.stats := Lavalink.stats n; Lavalink.ws := Lavalink.ws n |}.

(** Scenario A, and then the application sets [draining] on the node. *)
Definition draining_A : PlayerManager.t :=
  PlayerManager.set_nodeHeap
    (Js.assign (PlayerManager.nodeHeap scenario_A) 0 (drained (node_at 0 scenario_A)))
    scenario_A.

(** ** Removing a node *)
(** A computation of the coordinator only adds to a list of the world,
    whether it returns or throws. *)
Definition grows {X A : Type} (proj : PlayerManager.t -> list X)
                 (c : PlayerManager.M A) : Prop :=
  forall w, exists l, proj (snd (c w)) = proj w ++ l.

(** Scenario A, and then the socket of the node closes: the node waits to
    redial, and the session waits for a node. *)
Definition down_A : PlayerManager.t :=
  PlayerManager.turn fuel scenario_A (PlayerManager.SocketClose 0).


(** The options of a join on the node of host "n1". *)
Definition on_n1 : JoinOptions := {| jo_node := Some "n1"; jo_region := None |}.

(** The node reports the position 5000 for the session of "g1". *)
Definition position_5000 : PlayerManager.Message :=
  {| PlayerManager.m_op := Some "playerUpdate";
     PlayerManager.m_guildId := "g1";
     PlayerManager.m_type := None;
     PlayerManager.m_state := {| Player.position := Some 5000 |};
     PlayerManager.m_reason := "";
     PlayerManager.m_label := None |}.

(** A session in a state every method keeps: nothing waits in its send
    queue, and it is not both playing and paused. *)
Definition settled_session (p : Player.t) : Prop :=
  Player.sendQueue p = [] /\ consistent p.

(** A map without two entries of the same key. *)
Definition unique_keys {V : Type} (m : list (string * V)) : Prop :=
  NoDup (map fst m).

(** A node whose retry counter is not negative. *)
Definition counting (n : Lavalink.t) : Prop := 0 <= Lavalink.retries n.

(** What holds of the coordinator between any two of its steps. *)
Definition well_formed (w : PlayerManager.t) : Prop :=
  PlayerManager.failoverQueue w = []
  /\ Forall settled_session (PlayerManager.playerHeap w)
  /\ Forall counting (PlayerManager.nodeHeap w)
  /\ unique_keys (PlayerManager.players w)
  /\ unique_keys (PlayerManager.nodes w)
  /\ unique_keys (PlayerManager.pendingGuilds w).

(** A computation of the coordinator keeps the world well formed, whether
    it returns or throws. *)
Definition preserves {A : Type} (c : PlayerManager.M A) : Prop :=
  forall w, well_formed w -> well_formed (snd (c w)).
(** * Properties *)

(** ** Reconnect backoff of a node *)

Section Backoff.

Lemma failed_attempt_armed n d :
  Lavalink.reconnectInterval n = Some d ->
  exists n',
    Lavalink.failed_attempt n = (n', [computed_wait (Lavalink.retries n)])
    /\ Lavalink.retries n' = Lavalink.retries n + 1
    /\ Lavalink.reconnectInterval n'
       = Some (computed_wait (Lavalink.retries n))
    /\ Lavalink.reconnectTimeout n' = Lavalink.reconnectTimeout n.
Proof.
  intros _. unfold Lavalink.failed_attempt, Lavalink.reconnect,
    Lavalink.disconnected. cbn.
  eexists. repeat split.
Qed.

Lemma failed_attempts_armed k : forall n d,
  Lavalink.reconnectInterval n = Some d ->
  snd (Lavalink.failed_attempts k n)
  = map (fun i => computed_wait (Lavalink.retries n + Z.of_nat i)) (seq 0 k)
  /\ Lavalink.retries (fst (Lavalink.failed_attempts k n))
     = Lavalink.retries n + Z.of_nat k.
Proof.
  induction k as [|k IH]; intros n d Hd.
  - cbn. split; [reflexivity | lia].
  - destruct (failed_attempt_armed n d Hd) as (n1 & E & Hr & Hi & _).
    cbn [Lavalink.failed_attempts]. rewrite E.
    destruct (IH n1 _ Hi) as [IHw IHr].
    destruct (Lavalink.failed_attempts k n1) as [n2 d2]. cbn [fst snd] in *.
    split.
    + cbn [app seq map]. rewrite Z.add_0_r. f_equal.
      rewrite IHw, <- seq_shift, map_map.
      apply map_ext. intros i. f_equal. rewrite Hr. lia.
    + rewrite IHr, Hr. lia.
Qed.

End Backoff.

(** C5 (as stated, refuted). With the default options the socket of a
    connected node closes and every redial fails: the waits before the
    first seven redials are not 25 s, 36 s, 49 s, 64 s, 81 s, 100 s, 100 s;
    the first redial waits [reconnectTimeout] (5 s) and the second 16 s. *)
Lemma C5_backoff_sequence_counterexample :
  Lavalink.redial_waits 6 default_node
  = [5000; 16000; 25000; 36000; 49000; 64000; 81000]
  /\ Lavalink.redial_waits 6 default_node
     <> map announced_wait [1; 2; 3; 4; 5; 6; 7].
Proof. split; [reflexivity | discriminate]. Qed.

(** C5 (amended). After the socket of a connected node closes, the first
    redial waits [reconnectTimeout]; the redial scheduled when the retry
    counter is [r] (r = 0, 1, 2, ...) waits [(min(r-1,5)+5)^2 * 1000] ms,
    that is 16 s, 25 s, 36 s, 49 s, 64 s, 81 s and then 100 s for ever; and
    every scheduled reconnect increments the retry counter, which is [k]
    after [k] failed redials. *)
Theorem C5_backoff_sequence (n : Lavalink.t) (k : nat) :
  let n0 := fst (Lavalink.ready n) in
  Lavalink.redial_waits k n0
  = Lavalink.reconnectTimeout n
      :: map (fun r => (Z.min (Z.of_nat r - 1) 5 + 5) ^ 2 * 1000) (seq 0 k)
  /\ Lavalink.retries_after k n0 = Z.of_nat k
  /\ (forall m, Lavalink.retries (fst (Lavalink.reconnect m))
                = Lavalink.retries m + 1)
  /\ (forall r, 6 <= r -> computed_wait r = 100000).
Proof.
  cbv zeta.
  assert (H0 : Lavalink.reconnectInterval (fst (Lavalink.ready n)) = None).
  { unfold Lavalink.ready.
    destruct (Lavalink.reconnectInterval n) eqn:E; cbn; auto. }
  assert (Hr : Lavalink.retries (fst (Lavalink.ready n)) = 0).
  { unfold Lavalink.ready. destruct (Lavalink.reconnectInterval n); reflexivity. }
  assert (Ht : Lavalink.reconnectTimeout (fst (Lavalink.ready n))
               = Lavalink.reconnectTimeout n).
  { unfold Lavalink.ready. destruct (Lavalink.reconnectInterval n); reflexivity. }
  set (n0 := fst (Lavalink.ready n)) in *.
  assert (Hd : Lavalink.disconnected n0
               = (Lavalink.set_reconnectInterval
                    (Some (Lavalink.reconnectTimeout n0))
                    (Lavalink.set_ws None (Lavalink.set_connected false n0)),
                  [Lavalink.Emit Lavalink.EvDisconnect;
                   Lavalink.SetTimeout (Lavalink.reconnectTimeout n0)])).
  { unfold Lavalink.disconnected. cbn. rewrite H0. reflexivity. }
  repeat split.
  - unfold Lavalink.redial_waits. rewrite Hd.
    edestruct failed_attempts_armed as [Hw _]; [ | rewrite Hw ].
    + reflexivity.
    + cbn. rewrite Ht, Hr. f_equal.
  - unfold Lavalink.retries_after. rewrite Hd. cbn [fst].
    edestruct failed_attempts_armed as [_ Hk]; [ | rewrite Hk ].
    + reflexivity.
    + cbn. rewrite Hr. lia.
  - intros r Hr6. unfold computed_wait. rewrite Z.min_r by lia. reflexivity.
Qed.

(** ** The command queue of a session *)

Section CommandOrder.






End CommandOrder.




(** ** Node selection *)

Section Sorting.

Context {A : Type} (key : A -> Q).






End Sorting.

Section Selection.

Import DocumentedSelection.

Lemma has_socket_new o : has_socket (Lavalink.new o).
Proof. intros _. discriminate. Qed.

Lemma has_socket_reconnect n : has_socket (fst (Lavalink.reconnect n)).
Proof. intros _. discriminate. Qed.

Lemma has_socket_disconnected n : has_socket (fst (Lavalink.disconnected n)).
Proof.
  unfold has_socket, Lavalink.disconnected. cbn.
  destruct (Lavalink.reconnectInterval n); cbn; discriminate.
Qed.

Lemma has_socket_ready n :
  Lavalink.ws n <> None -> has_socket (fst (Lavalink.ready n)).
Proof.
  unfold has_socket, Lavalink.ready.
  destruct (Lavalink.reconnectInterval n); cbn; auto.
Qed.

Lemma has_socket_destroy n : has_socket n -> has_socket (fst (Lavalink.destroy n)).
Proof.
  unfold has_socket, Lavalink.destroy.
  destruct (Lavalink.ws n); cbn; auto. discriminate.
Qed.

Lemma has_socket_send n d : has_socket n -> has_socket (Lavalink.send d n).
Proof.
  unfold has_socket, Lavalink.send.
  destruct (Lavalink.ws n); cbn; auto. discriminate.
Qed.


End Selection.



(** ** The join of a session *)

(** Unfolds the methods of a session down to the record. *)
Ltac unfold_methods :=
  repeat (progress
    (unfold Player.connect, Player.disconnect, Player._disconnect, Player.setEQ,
       Player.destroy, Player.play, Player.stop, Player.stateUpdate,
       Player.setPause, Player.pause, Player.resume, Player.seek,
       Player.setVolume, Player.onTrackEnd, Player.onTrackException,
       Player.onTrackStuck, Player.switchChannel, Player.updateVoiceState,
       Player.checkEventQueue, Player.queueEvent, Player.sendEvent,
       Player.andThen, Player.mutate, Player.perform, Player.skip;
     cbn)).

(** C4 (the code at scenario A). [join("g1", "c1")] and the voice server
    update: the promise is resolved, once, with a session whose channel is
    "c1" and whose [ready] flag is false; the constructor clears the flag
    and no method of a session changes it. *)
Theorem C4_join_resolves_not_ready :
  PlayerManager.idle scenario_A = true
  /\ settlements 0 scenario_A = [PlayerManager.Resolved 0]
  /\ option_map Player.channelId (Js.deref (PlayerManager.playerHeap scenario_A) 0)
     = Some "c1"
  /\ option_map Player.ready (Js.deref (PlayerManager.playerHeap scenario_A) 0)
     = Some false
  /\ (forall id_ o t0, Player.ready (Player.new id_ o t0) = false)
  /\ (forall c draining t0 p,
        Player.ready (fst (Player.call c draining t0 p)) = Player.ready p).
Proof.
  repeat split; try (vm_compute; reflexivity).
  intros c draining t0 p.
  destruct c; cbn; unfold_methods;
    repeat match goal with
           | |- context [if ?b then _ else _] => destruct b; cbn
           end;
    reflexivity.
Qed.

(** C6 (the code at the failing input). [join("g1", "")] and the voice
    server update: the entry is deleted and then read again for its [rej],
    which throws; the promise of the caller is not rejected, the timer of
    the join is cleared, and nothing is left that would settle it. *)
Theorem C6_invalid_channel_not_rejected :
  let w := no_channel_update in
  uncaught w = ["TypeError: Cannot read property 'rej' of undefined"]
  /\ settlements 0 w = []
  /\ PlayerManager.pendingGuilds w = []
  /\ PlayerManager.timers w = []
  /\ PlayerManager.idle w = true.
Proof. vm_compute. repeat split. Qed.

(** Without a timer, time passes and nothing else happens. *)
Lemma wait_no_timers f ms w :
  PlayerManager.timers w = [] ->
  PlayerManager.turn (S f) w (PlayerManager.Wait ms)
  = PlayerManager.set_now
      (Z.max (PlayerManager.now w) (PlayerManager.now w + ms)) w.
Proof.
  intros Ht. cbn [PlayerManager.turn PlayerManager.elapse]. now rewrite Ht.
Qed.

(** C2 (the code at the failing input). The entry of "g1" is neither
    resolved nor rejected, however long one waits: after the voice server
    update of a join with no channel the entry is gone, its timer is
    cleared, an exception left [voiceServerUpdate], and the promise has seen
    no call of [res] or [rej]. On the other paths the entry is settled
    once and is gone: resolved in scenario A, rejected by the timer in
    scenario B. *)
Theorem C2_pending_join_never_settled (ms : Z) :
  (settlements 0 (no_channel ms) = []
   /\ PlayerManager.pendingGuilds (no_channel ms) = []
   /\ PlayerManager.timers (no_channel ms) = []
   /\ uncaught (no_channel ms) = ["TypeError: Cannot read property 'rej' of undefined"]
   /\ PlayerManager.idle (no_channel ms) = true)
  /\ (settlements 0 scenario_A = [PlayerManager.Resolved 0]
      /\ PlayerManager.pendingGuilds scenario_A = [])
  /\ (settlements 0 scenario_B = [PlayerManager.Rejected "Voice connection timeout"]
      /\ PlayerManager.pendingGuilds scenario_B = []).
Proof.
  split; [|vm_compute; repeat split].
  assert (Ht : PlayerManager.timers no_channel_update = []).
  { vm_compute. reflexivity. }
  unfold no_channel, fuel. rewrite (wait_no_timers _ _ _ Ht).
  generalize (Z.max (PlayerManager.now no_channel_update)
                    (PlayerManager.now no_channel_update + ms)).
  intros z. vm_compute. repeat split.
Qed.

(** ** What a computation leaves untouched *)

Section Frame.

Import PlayerManager.
Context {X : Type} (proj : t -> X).

Lemma keeps_ret {A} (a : A) : keeps proj (ret a).
Proof. intros w. reflexivity. Qed.

Lemma keeps_throw {A} e : keeps proj (@throw A e).
Proof. intros w. reflexivity. Qed.

Lemma keeps_gets {A} (f : t -> A) : keeps proj (gets f).
Proof. intros w. reflexivity. Qed.

Lemma keeps_modify f : (forall w, proj (f w) = proj w) -> keeps proj (modify f).
Proof. intros H w. apply H. Qed.

Lemma keeps_bind {A B} (c : M A) (k : A -> M B) :
  keeps proj c -> (forall a, keeps proj (k a)) -> keeps proj (bind c k).
Proof.
  intros Hc Hk w. unfold bind. specialize (Hc w).
  destruct (c w) as [[a|e] w']; cbn in *; [|exact Hc].
  now rewrite Hk.
Qed.

Lemma keeps_catch {A} (c : M A) (h : string -> M A) :
  keeps proj c -> (forall e, keeps proj (h e)) -> keeps proj (catch c h).
Proof.
  intros Hc Hh w. unfold catch. specialize (Hc w).
  destruct (c w) as [[a|e] w']; cbn in *; [exact Hc|].
  now rewrite Hh.
Qed.

Lemma keeps_for_of {A} (l : list A) (body : A -> M unit) :
  (forall x, keeps proj (body x)) -> keeps proj (for_of l body).
Proof.
  intros Hb. induction l as [|x l IH]; cbn [for_of].
  - apply keeps_ret.
  - apply keeps_bind; auto.
Qed.

End Frame.

(** Splits a computation along its binds, loops and branches, down to the
    primitives of the monad. *)
Ltac frame_step :=
  first
    [ apply keeps_ret | apply keeps_throw | apply keeps_gets
    | apply keeps_bind; [|intros ?]
    | apply keeps_catch; [|intros ?]
    | apply keeps_for_of; intros ?
    | apply keeps_modify; intros ?;
      repeat match goal with
             | |- context [match ?x with _ => _ end] => destruct x
             end;
      reflexivity
    | match goal with
      | |- keeps _ (match ?x with _ => _ end) => destruct x
      | |- keeps _ (fun w => _) => intros ?w; cbn
      | |- PlayerManager.failoverQueue (snd (match ?x with _ => _ end)) = _ =>
          destruct x; cbn
      | |- PlayerManager.failoverQueue (snd (let '(_, _) := ?x in _)) = _ =>
          destruct x; cbn
      | |- PlayerManager.failoverQueue _ = _ => reflexivity
      end ].

Ltac frame_unfold :=
  unfold PlayerManager.getPlayer, PlayerManager.setPlayer,
    PlayerManager.update_player, PlayerManager.newClosure,
    PlayerManager.getNode, PlayerManager.setNode,
    PlayerManager.nextTick, PlayerManager.observe,
    PlayerManager.setTimeout, PlayerManager.pending,
    PlayerManager.delete_pending, PlayerManager.settle,
    PlayerManager.call_closure, PlayerManager.readyHandler,
    PlayerManager.disconnectHandler, PlayerManager.emit,
    PlayerManager.perform, PlayerManager.invoke,
    PlayerManager.invoke_plain.

Ltac frame := repeat first [ frame_step | progress frame_unfold ].

Section FailoverQueue.

Import PlayerManager.

Lemma switchNode_keeps_queue r leave : keeps failoverQueue (switchNode r leave).
Proof. unfold switchNode. frame. Qed.

Lemma processQueue_keeps_queue fn : keeps failoverQueue (processQueue fn).
Proof.
  unfold processQueue.
  repeat first [ apply switchNode_keeps_queue | frame_step | progress frame_unfold ].
Qed.

(** A thunk queued on an empty queue is called at once, and the queue is
    empty again. *)
Lemma queueFailover_empty fn w :
  failoverQueue w = [] ->
  queueFailover fn w = processQueue fn w
  /\ failoverQueue (snd (queueFailover fn w)) = [].
Proof.
  intros Hq.
  assert (E : queueFailover fn w = processQueue fn w).
  { unfold queueFailover, bind, gets. rewrite Hq. reflexivity. }
  split; [exact E|].
  rewrite E, (processQueue_keeps_queue fn w). exact Hq.
Qed.

End FailoverQueue.

(** C8 (the code at the failing input). A thunk queued on an empty queue
    is called at once and is not put on the queue, so the queue of a
    coordinator never fills: queuing any thunks is calling each of them on
    the spot. With [failoverLimit = 1] and [failoverRate = 250] the five
    migrations of a node that goes down are all called at the same instant
    (60000 ms here), none 250 ms after another. *)
Theorem C8_failover_queue_never_fills
    (w : PlayerManager.t) (fns : list PlayerManager.Failover) :
  PlayerManager.failoverQueue w = [] ->
  PlayerManager.for_of fns PlayerManager.queueFailover w
  = PlayerManager.for_of fns PlayerManager.processQueue w
  /\ PlayerManager.failoverQueue
       (PlayerManager.exec (PlayerManager.for_of fns PlayerManager.queueFailover) w)
     = []
  /\ migrations node_down
     = [(60000, 0%nat, true); (60000, 1%nat, true); (60000, 2%nat, true);
        (60000, 3%nat, true); (60000, 4%nat, true)].
Proof.
  intros Hq. rewrite <- and_assoc. split; [|vm_compute; reflexivity].
  revert w Hq. induction fns as [|fn fns IH]; intros w Hq.
  - split; [reflexivity | exact Hq].
  - destruct (queueFailover_empty fn w Hq) as [E Hq'].
    unfold PlayerManager.exec in *.
    cbn [PlayerManager.for_of]. unfold PlayerManager.bind.
    rewrite E in *.
    destruct (PlayerManager.processQueue fn w) as [[[]|e] w']; cbn [snd] in *.
    + apply IH, Hq'.
    + split; [reflexivity | exact Hq'].
Qed.

(** C8 at the five sessions of "n1". *)
Lemma C8_failover_queue_never_fills_witness :
  PlayerManager.for_of five_thunks PlayerManager.queueFailover five_sessions
  = PlayerManager.for_of five_thunks PlayerManager.processQueue five_sessions
  /\ PlayerManager.failoverQueue
       (PlayerManager.exec
          (PlayerManager.for_of five_thunks PlayerManager.queueFailover)
          five_sessions)
     = []
  /\ migrations node_down
     = [(60000, 0%nat, true); (60000, 1%nat, true); (60000, 2%nat, true);
        (60000, 3%nat, true); (60000, 4%nat, true)].
Proof.
  exact (C8_failover_queue_never_fills five_sessions five_thunks eq_refl).
Defined.

(** C10 (the code at the failing input). [shardReady(0)] selects no
    session, whatever the coordinator holds: a shard id of 0 is falsy. The
    session of a guild on shard 0 is not migrated when shard 0 is ready,
    where the session of a guild on shard 1 is, without leaving, when shard
    1 is. [onDisconnect(node)] queues a migration that leaves the channel
    for every session whose node has the host of [node]. *)
Theorem C10_shard_zero_not_migrated (w : PlayerManager.t) :
  (forall node n,
      Js.deref (PlayerManager.nodeHeap w) node = Some n ->
      PlayerManager.onDisconnect node w
      = PlayerManager.for_of
          (PlayerManager.on_node w (Lavalink.host n))
          (fun '(player, _) =>
             PlayerManager.queueFailover
               {| PlayerManager.f_player := player;
                  PlayerManager.f_leave := true |}) w)
  /\ PlayerManager.on_shard w 0 = []
  /\ PlayerManager.shardReady 0 w = (PlayerManager.Returned tt, w)
  /\ option_map (fun p => Shard.id (Player.shard p))
                (Js.deref (PlayerManager.playerHeap two_shards) 0) = Some (Some 0)
  /\ migrations (PlayerManager.run fuel [PlayerManager.ShardReady 0] two_shards) = []
  /\ migrations (PlayerManager.run fuel [PlayerManager.ShardReady 1] two_shards)
     = [(0, 1%nat, false)].
Proof.
  assert (E : PlayerManager.on_shard w 0 = []).
  { unfold PlayerManager.on_shard.
    induction (PlayerManager.player_values w) as [|[r p] l IH]; [reflexivity|].
    cbn [filter]. rewrite IH.
    destruct (Shard.id (Player.shard p)) as [i|]; [|reflexivity].
    unfold Js.truthy_num. destruct (i =? 0); reflexivity. }
  split.
  { intros node n Hn.
    unfold PlayerManager.onDisconnect, PlayerManager.bind, PlayerManager.getNode,
      PlayerManager.gets.
    now rewrite Hn. }
  split; [exact E|]. split; [|vm_compute; repeat split].
  unfold PlayerManager.shardReady, PlayerManager.bind, PlayerManager.gets.
  now rewrite E.
Qed.

(** ** Symbolic runs of the coordinator *)

Lemma nth_error_snoc {A} (h : list A) x :
  nth_error (h ++ [x]) (List.length h) = Some x.
Proof. rewrite nth_error_app2, Nat.sub_diag by lia. reflexivity. Qed.

Lemma assign_snoc {A} (h : list A) x y :
  Js.assign (h ++ [x]) (List.length h) y = h ++ [y].
Proof. induction h as [|a h IH]; cbn; [reflexivity|]. now rewrite IH. Qed.

Lemma deref_assign {A} (h : list A) : forall r x y,
  nth_error h r = Some x -> nth_error (Js.assign h r y) r = Some y.
Proof.
  induction h as [|a h IH]; intros [|r] x y H; cbn in *; try discriminate; eauto.
Qed.

Lemma assign_assign {A} (h : list A) : forall r x y,
  Js.assign (Js.assign h r x) r y = Js.assign h r y.
Proof.
  induction h as [|a h IH]; intros [|r] x y; cbn; try reflexivity.
  now rewrite IH.
Qed.

Lemma get_set {V} g (v : V) m : Js.get g (Js.set g v m) = Some v.
Proof.
  induction m as [|[k v'] m IH]; cbn.
  - now rewrite String.eqb_refl.
  - destruct (String.eqb g k) eqn:E; cbn; rewrite ?E, ?String.eqb_refl; auto.
Qed.

Lemma idle_queues w :
  PlayerManager.idle w = true ->
  PlayerManager.ticks w = [] /\ PlayerManager.jobs w = [].
Proof.
  unfold PlayerManager.idle.
  destruct (PlayerManager.ticks w), (PlayerManager.jobs w); try discriminate.
  auto.
Qed.

#[local] Arguments PlayerManager.regionFromData : simpl never.
#[local] Arguments PlayerManager.idealNodeOf : simpl never.

Lemma idealNode_promises e x w :
  PlayerManager.idealNodeOf
    (PlayerManager.regionFromData e (PlayerManager.set_promises x w))
    (PlayerManager.set_promises x w)
  = PlayerManager.idealNodeOf (PlayerManager.regionFromData e w) w.
Proof. reflexivity. Qed.

Create HintDb manager.

#[local] Hint Unfold
  PlayerManager.turn PlayerManager.drain PlayerManager.callback
  PlayerManager.input PlayerManager.run_job PlayerManager.run_tick
  PlayerManager.reaction PlayerManager.join PlayerManager.join_register
  PlayerManager.getRegionFromData PlayerManager.findIdealNode
  PlayerManager.enqueueJob PlayerManager.setTimeout PlayerManager.newPromise
  PlayerManager.gets PlayerManager.getPlayer PlayerManager.ret
  PlayerManager.invoke_plain PlayerManager.invoke PlayerManager.bind
  PlayerManager.setPlayer PlayerManager.modify PlayerManager.settle
  PlayerManager.exec PlayerManager.update_player PlayerManager.nextTick
  PlayerManager.observe PlayerManager.perform PlayerManager.newClosure
  PlayerManager.getNode PlayerManager.setNode Js.deref
  Player.switchChannel Player.updateVoiceState Player.skip Player.andThen
  Player.mutate Player.perform : manager.

(** Runs the computation in [E] as far as the rewrites [rw] let it go. *)
Ltac crunch_in E rw :=
  repeat (progress (autounfold with manager in E; cbn in E; rw)).

(** C3 (as stated, refuted). A session of "g1" is ready on channel "c1";
    [join("g1", "c1")] does not resolve: it registers a pending join that
    carries the session, and ten seconds later, no voice server update
    having come, the promise is rejected. *)
Lemma C3_join_same_channel_counterexample :
  option_map Player.channelId (Js.deref (PlayerManager.playerHeap scenario_A) 0)
  = Some "c1"
  /\ settlements 1 joined_twice = []
  /\ option_map PendingJoin.player (Js.get "g1" (PlayerManager.pendingGuilds joined_twice))
     = Some (Some 0%nat)
  /\ PlayerManager.idle joined_twice = true
  /\ settlements 1 (PlayerManager.turn fuel joined_twice (PlayerManager.Wait 10000))
     = [PlayerManager.Rejected "Voice connection timeout"].
Proof. vm_compute. repeat split. Qed.

(** C3 (amended). [join(guildId, channelId)] while a session [r] of the
    guild exists sends nothing to a node or to the gateway. When the
    channel differs from the current one of the session, the session
    switches to it and the promise resolves with it at once, and no pending
    join is registered. When the channel is the current one, the promise
    stays open and a pending join carrying the session is registered for
    the node that was selected, or the promise is rejected when no node was. *)
Theorem C3_join_existing_session
    (w : PlayerManager.t) (g c : string) (r : nat) (p : Player.t) (f : nat) :
  PlayerManager.idle w = true ->
  Js.get g (PlayerManager.players w) = Some r ->
  Js.deref (PlayerManager.playerHeap w) r = Some p ->
  let promise := List.length (PlayerManager.promises w) in
  let w' := PlayerManager.turn (4 + f) w (PlayerManager.Join g c None) in
  PlayerManager.idle w' = true
  /\ PlayerManager.nodeHeap w' = PlayerManager.nodeHeap w
  /\ PlayerManager.trace w' = PlayerManager.trace w
  /\ if String.eqb (Player.channelId p) c
     then
       match PlayerManager.idealNodeOf (PlayerManager.regionFromData "us" w) w with
       | Some n =>
           settlements promise w' = []
           /\ Js.get g (PlayerManager.pendingGuilds w')
              = Some {| PendingJoin.channelId := c;
                        PendingJoin.hostname := None;
                        PendingJoin.options :=
                          {| jo_node := None; jo_region := None |};
                        PendingJoin.player := Some r;
                        PendingJoin.node := n;
                        PendingJoin.promise := promise;
                        PendingJoin.timeout := Some (PlayerManager.handles w) |}
       | None =>
           settlements promise w' = [PlayerManager.Rejected "No available voice nodes."]
           /\ PlayerManager.pendingGuilds w' = PlayerManager.pendingGuilds w
       end
     else
       settlements promise w' = [PlayerManager.Resolved r]
       /\ PlayerManager.pendingGuilds w' = PlayerManager.pendingGuilds w
       /\ option_map Player.channelId (Js.deref (PlayerManager.playerHeap w') r)
          = Some c.
Proof.
  intros Hidle Hg Hr. cbv zeta.
  destruct (idle_queues w Hidle) as [Ht Hj].
  remember (PlayerManager.turn (4 + f) w (PlayerManager.Join g c None)) as w' eqn:E.
  unfold Js.deref in Hr.
  destruct (String.eqb (Player.channelId p) c) eqn:Hc.
  - crunch_in E ltac:(rewrite ?Hg, ?Hr, ?Hc, ?Ht, ?Hj, ?nth_error_snoc,
                        ?assign_snoc, ?idealNode_promises in E).
    destruct (PlayerManager.idealNodeOf (PlayerManager.regionFromData "us" w) w)
      as [n|] eqn:Hn;
      crunch_in E ltac:(rewrite ?Hg, ?Hr, ?Hc, ?Ht, ?Hj, ?nth_error_snoc,
                          ?assign_snoc in E);
      subst w'; unfold settlements, PlayerManager.idle, Js.deref; cbn;
      rewrite ?nth_error_snoc, ?get_set, ?Ht; repeat split.
  - crunch_in E ltac:(rewrite ?Hg, ?Hr, ?Hc, ?Ht, ?Hj, ?nth_error_snoc,
                        ?assign_snoc in E).
    subst w'. unfold settlements, PlayerManager.idle, Js.deref. cbn.
    rewrite ?nth_error_snoc, ?Ht, (deref_assign _ _ _ _ Hr). repeat split.
Qed.

(** C3 at scenario A, for the channel the session is on. *)
Lemma C3_join_existing_session_witness :
  PlayerManager.idle joined_twice = true
  /\ PlayerManager.nodeHeap joined_twice = PlayerManager.nodeHeap scenario_A
  /\ PlayerManager.trace joined_twice = PlayerManager.trace scenario_A
  /\ settlements 1 joined_twice = []
  /\ Js.get "g1" (PlayerManager.pendingGuilds joined_twice)
     = Some {| PendingJoin.channelId := "c1";
               PendingJoin.hostname := None;
               PendingJoin.options := {| jo_node := None; jo_region := None |};
               PendingJoin.player := Some 0%nat;
               PendingJoin.node := 0%nat;
               PendingJoin.promise := 1%nat;
               PendingJoin.timeout := Some 1%nat |}.
Proof.
  assert (H1 : PlayerManager.idle scenario_A = true) by (vm_compute; reflexivity).
  assert (H2 : Js.get "g1" (PlayerManager.players scenario_A) = Some 0%nat)
    by (vm_compute; reflexivity).
  assert (H3 : Js.deref (PlayerManager.playerHeap scenario_A) 0
               = Some (session_at 0 scenario_A)) by (vm_compute; reflexivity).
  pose proof (C3_join_existing_session scenario_A "g1" "c1" 0
                (session_at 0 scenario_A) 60 H1 H2 H3) as H.
  vm_compute in H. vm_compute. exact H.
Defined.

(** ** The event emitter: removing the listeners of an event *)

Section Emitter.

Import Player.







(** Removing listeners changes the registrations only. *)
Lemma detach_fields fns p :
  detach fns p = set_listeners (listeners (detach fns p)) p.
Proof.
  revert p. induction fns as [|f fns IH]; intros p; [now destruct p|].
  cbn [detach fold_left]. fold (detach fns (removeListener EvEnd f p)).
  rewrite IH at 1. reflexivity.
Qed.

End Emitter.

(** ** Migration *)

Section Migration.

Import PlayerManager.

Lemma same_but_sessions_refl w : same_but_sessions w w.
Proof. unfold same_but_sessions. repeat split. Qed.

(** A loop that updates one session. *)
Lemma update_loop {A} (ls : list A) (f : A -> Player.t -> Player.t) r :
  forall w p,
    nth_error (playerHeap w) r = Some p ->
    exists w1,
      for_of ls (fun l => update_player r (f l)) w = (Returned tt, w1)
      /\ nth_error (playerHeap w1) r = Some (fold_left (fun q l => f l q) ls p)
      /\ same_but_sessions w w1.
Proof.
  induction ls as [|l ls IH]; intros w p Hp.
  - exists w. cbn. auto using same_but_sessions_refl.
  - cbn [for_of fold_left].
    destruct (IH (set_playerHeap (Js.assign (playerHeap w) r (f l p)) w) (f l p))
      as (w1 & E & Hp1 & S).
    { cbn. eapply deref_assign, Hp. }
    exists w1. split; [|split; [exact Hp1 | exact S]].
    unfold bind at 1. unfold update_player, bind, getPlayer, setPlayer, modify, Js.deref.
    rewrite Hp. exact E.
Qed.


(** [switchNode], up to its next tick. *)
Lemma switchNode_sync w r p leave :
  nth_error (playerHeap w) r = Some p ->
  exists w',
    switchNode r leave w = (Returned tt, w')
    /\ nth_error (playerHeap w') r
       = Some (migrating (List.length (closures w)) p)
    /\ players w' = Js.delete (Player.guildId p) (players w)
    /\ closures w' = closures w ++ [RestoreEnd r (Player.listeners_of Player.EvEnd p)]
    /\ ticks w'
       = ticks w ++ [SwitchNodeJoin r (Player.guildId p) (Player.channelId p)
                       (Player.track p) (Player.paused p) (resume_position w p)]
    /\ trace w' = trace w ++ leave_message w p leave
    /\ nodeHeap w' = nodeHeap w
    /\ pendingGuilds w' = pendingGuilds w
    /\ promises w' = promises w.
Proof.
  intros Hp.
  destruct (update_loop (Player.listeners_of Player.EvEnd p)
              (Player.removeListener Player.EvEnd) r w p Hp)
    as (w1 & Eloop & Hp1 & S).
  fold (detach (Player.listeners_of Player.EvEnd p) p) in Hp1.
  unfold migrating.
  pose proof (detach_fields (Player.listeners_of Player.EvEnd p) p) as Hd.
  remember (Player.listeners (detach (Player.listeners_of Player.EvEnd p) p))
    as ld eqn:Eld.
  rewrite Hd in Hp1 |- *. clear Hd Eld.
  destruct S as (Spl & Sno & Sop & Spe & Sfq & Snh & Scl & Spr & Snow & Sti & Sjo
                 & Stm & Sha & Str).
  unfold switchNode.
  unfold bind at 1. unfold getPlayer at 1. unfold Js.deref. rewrite Hp.
  unfold bind at 1. unfold gets at 1. cbv beta iota.
  unfold bind at 1. rewrite Eloop. cbv beta iota.
  match goal with |- exists w', ?c w1 = _ /\ _ => remember (c w1) as res eqn:E end.
  assert (D : forall y, nth_error (Js.assign (playerHeap w1) r y) r = Some y).
  { intros y. eapply deref_assign, Hp1. }
  unfold leave_message, resume_position.
  destruct leave, (Shard.sendWS (Player.shard p)) eqn:Hws;
    crunch_in E ltac:(rewrite ?Hp1, ?Scl, ?Hws, ?nth_error_snoc, ?assign_assign,
                        ?D in E);
    subst res; eexists; (split; [reflexivity|]); cbn;
    rewrite ?assign_assign, ?D, ?Spl, ?Sti, ?Str, ?Snh, ?Spe, ?Spr, ?Snow,
      ?app_nil_r;
    repeat split.
Qed.






#[local] Hint Unfold switchNode_then switchNode_catch call emit catch
  Player.call Player.play Player.pause Player.resume Player.setPause
  Player.stop Player.disconnect Player._disconnect Player.queueEvent
  Player.sendEvent Player.registered : manager.






End Migration.




(** * Further properties of the code *)

(** ** Turns of the event loop, one callback at a time *)

Section Loop.

Import PlayerManager.




Lemma drain_to_ticks f k rest w :
  jobs w = [] -> ticks w = k :: rest ->
  drain_from PromiseJobs (S f) w = drain_from NextTicks f w.
Proof. intros H1 H2. cbn. now rewrite H1, H2. Qed.


End Loop.

(** Runs the computation in [E] as far as the rewrites [rw] let it go. *)
Ltac crunch_with E rw :=
  repeat (progress (autounfold with manager in E; cbn in E; rw E)).






Ltac to_ticks Ew rwg :=
  erewrite drain_to_ticks in Ew by (cbn; rwg; reflexivity).


(** ** The reconnect loop of a node *)

(** X1. The wait [retryInterval] computes is at least 16 s and at most
    100 s whatever the retry counter, which is never negative, and it does
    not decrease when the counter grows. *)
Theorem X1_retryInterval_bounds (n m : Lavalink.t) :
  0 <= Lavalink.retries n ->
  Lavalink.retries n <= Lavalink.retries m ->
  16000 <= Lavalink.retryInterval n
  /\ Lavalink.retryInterval n <= Lavalink.retryInterval m
  /\ Lavalink.retryInterval m <= 100000.
Proof.
  intros H0 Hle. unfold Lavalink.retryInterval.
  set (a := Z.min (Lavalink.retries n - 1) 5).
  set (b := Z.min (Lavalink.retries m - 1) 5).
  assert (Ha : -1 <= a <= 5) by (unfold a; lia).
  assert (Hb : a <= b <= 5) by (unfold a, b; lia).
  rewrite !Z.pow_2_r. nia.
Qed.

(** X1 for the retry counters 0 and 3. *)
Lemma X1_retryInterval_bounds_witness :
  16000 <= Lavalink.retryInterval (retried 0)
  /\ Lavalink.retryInterval (retried 0) <= Lavalink.retryInterval (retried 3)
  /\ Lavalink.retryInterval (retried 3) <= 100000.
Proof.
  apply (X1_retryInterval_bounds (retried 0) (retried 3)); vm_compute; discriminate.
Defined.

Section Outage.


End Outage.



Section Recovery.

Lemma redials_configuration k : forall n,
  configuration (fst (redials k n)) = configuration n.
Proof.
  induction k as [|k IH]; intros n; [reflexivity|].
  cbn [redials]. unfold Lavalink.reconnect.
  destruct (Lavalink.disconnected _) as [n2 e2] eqn:E2.
  specialize (IH n2). destruct (redials k n2) as [n3 e3]. cbn [fst] in *.
  rewrite IH. unfold Lavalink.disconnected in E2. cbn in E2.
  injection E2 as <- _. reflexivity.
Qed.

Lemma outage_configuration k n :
  configuration (fst (outage k n)) = configuration n.
Proof.
  unfold outage.
  destruct (Lavalink.disconnected n) as [n1 e1] eqn:E1.
  pose proof (redials_configuration k n1) as H.
  destruct (redials k n1) as [n2 e2]. cbn [fst] in *. rewrite H.
  unfold Lavalink.disconnected in E1. cbn in E1.
  destruct (Lavalink.reconnectInterval n); injection E1 as <- _; reflexivity.
Qed.

End Recovery.

(** X3. However long the outage was, the redial that succeeds leaves the
    node connected on a new socket on which nothing was sent, with the
    retry counter at zero and no timer: the timer the redial armed is
    cleared when the socket opens, and 'ready' is emitted. The host, port,
    region, draining flag, reconnect timeout and cached stats of the node
    are what they were before the outage. *)
Theorem X3_recovery_resets_node (n : Lavalink.t) (k : nat) :
  let '(n', es) := recovery k n in
  Lavalink.connected n' = true
  /\ Lavalink.retries n' = 0
  /\ Lavalink.reconnectInterval n' = None
  /\ Lavalink.ws n' = Some {| Lavalink.frames := []; Lavalink.closeListener := true |}
  /\ (exists d, es = [Lavalink.SetTimeout d; Lavalink.ClearTimeout;
                      Lavalink.Emit Lavalink.EvReady])
  /\ configuration n' = configuration n.
Proof.
  unfold recovery.
  pose proof (outage_configuration k n) as Hc.
  destruct (outage k n) as [n1 e1]. cbn [fst] in Hc.
  unfold Lavalink.reconnect, Lavalink.ready. cbn.
  repeat split; eauto.
Qed.


Ltac split_ifs :=
  repeat match goal with
         | |- context [if ?b then _ else _] => destruct b eqn:?; cbn in *
         end.

(** X5. No method of a session leaves it both playing and paused, on a
    draining node or not: [setPause] sets the two flags to opposite values,
    [play] sets [playing] to the negation of [paused], and the other
    methods that touch [playing] clear it. A new session is neither. *)
Theorem X5_never_playing_and_paused
    (c : Player.Call) (draining : bool) (now : Z) (p : Player.t) :
  consistent p ->
  consistent (fst (Player.call c draining now p)).
Proof.
  unfold consistent. intros H.
  destruct c; cbn; unfold_methods; split_ifs;
    try assumption; try reflexivity; try congruence;
    try (destruct (Player.paused p); reflexivity);
    try (destruct pause_; reflexivity);
    destruct (Player.playing p), (Player.paused p); cbn in *; congruence.
Qed.

(** X5 for [setPause(true)] on a session that plays. *)
Lemma X5_never_playing_and_paused_witness :
  consistent (fst (Player.call (Player.SetPause true) false 2 playing_g1)).
Proof.
  apply (X5_never_playing_and_paused (Player.SetPause true) false 2 playing_g1).
  reflexivity.
Defined.

(** X6. On a session that plays, [pause()] and then [resume()] send
    [pause: true] and [pause: false] and leave the session as it was;
    [pause()] on a session that does not play, and [resume()] on one that
    is not paused, do nothing; a second [pause()] or [resume()] in a row
    does nothing more than the first. *)
Theorem X6_pause_resume_round_trip (p : Player.t) :
  Player.playing p = true ->
  Player.paused p = false ->
  Player.andThen Player.pause Player.resume p
  = (p, [Player.Send (OpPause (Player.guildId p) true);
         Player.Send (OpPause (Player.guildId p) false)])
  /\ Player.resume p = (p, [])
  /\ Player.pause (fst (Player.pause p)) = (fst (Player.pause p), [])
  /\ Player.andThen Player.pause Player.pause p = Player.pause p
  /\ Player.andThen Player.resume Player.resume
       (fst (Player.pause p))
     = Player.resume (fst (Player.pause p)).
Proof.
  intros H1 H2. destruct p. cbn in *. subst.
  unfold Player.andThen, Player.pause, Player.resume. cbn.
  unfold_methods. repeat split.
Qed.

(** X6 for a session that plays. *)
Lemma X6_pause_resume_round_trip_witness :
  Player.andThen Player.pause Player.resume playing_g1
  = (playing_g1, [Player.Send (OpPause "g1" true); Player.Send (OpPause "g1" false)])
  /\ Player.resume playing_g1 = (playing_g1, [])
  /\ Player.pause (fst (Player.pause playing_g1)) = (fst (Player.pause playing_g1), [])
  /\ Player.andThen Player.pause Player.pause playing_g1 = Player.pause playing_g1
  /\ Player.andThen Player.resume Player.resume (fst (Player.pause playing_g1))
     = Player.resume (fst (Player.pause playing_g1)).
Proof. exact (X6_pause_resume_round_trip playing_g1 eq_refl eq_refl). Defined.

(** X7. Whatever the state of a session, [disconnect(msg)] leaves it not
    playing, not paused and without a track, with the track it had in
    [lastTrack]; a paused session is resumed on the way, since [playing]
    is cleared before [resume()] tests it. 'disconnect' is emitted once,
    with [msg], after everything else; [_disconnect()], which [leave] of
    the coordinator calls, does the same and emits nothing. *)
Theorem X7_disconnect_resets_session (p : Player.t) (msg : option string) :
  let '(p', es) := Player._disconnect p in
  Player.playing p' = false
  /\ Player.paused p' = false
  /\ Player.track p' = None
  /\ Player.lastTrack p' = Player.track p
  /\ emits es = []
  /\ Player.disconnect msg p = (p', es ++ [Player.Emit Player.EvDisconnect msg]).
Proof.
  destruct p as [? ? ? ? ? ? ? ? paused ? ? ? queue ? ? ? ?].
  destruct paused, queue as [|d queue]; unfold Player.disconnect; unfold_methods;
    repeat split.
Qed.

(** X8. [lastTrack] is the value [track] had when the last method that
    changes the track was called: [play], [stop], [disconnect], a stuck
    track and the end of a track that was not replaced. So when a track
    ends and the next one is played, [lastTrack] is null, not the track
    that ended; it holds the previous track only when [play] replaced a
    track that had not ended, and the 'REPLACED' end that follows keeps
    the new track. *)
Theorem X8_last_track (p : Player.t) (a b : option string)
    (o o' : option PlayOptions) (t t' : Z) (reason : string) :
  let p1 := fst (Player.play a o false t p) in
  let ended := fst (Player.onTrackEnd reason p1) in
  let p2 := fst (Player.play b o' false t' p1) in
  (forall c draining now,
      Player.lastTrack (fst (Player.call c draining now p))
      = if moves_track c then Player.track p else Player.lastTrack p)
  /\ Player.lastTrack (fst (Player.play b o' false t' ended))
     = (if String.eqb reason "REPLACED" then a else None)
  /\ Player.lastTrack p2 = a
  /\ Player.track (fst (Player.onTrackEnd "REPLACED" p2)) = b
  /\ Player.lastTrack (fst (Player.onTrackEnd "REPLACED" p2)) = a.
Proof.
  cbv zeta. split.
  - intros c draining now.
    destruct c; cbn; unfold_methods; split_ifs; reflexivity.
  - unfold_methods. split_ifs; repeat split; congruence.
Qed.

Section Regions.







End Regions.


Section Quiet.

Import PlayerManager.


Lemma send_all_app ds ds' n :
  send_all (ds ++ ds') n = send_all ds' (send_all ds n).
Proof. unfold send_all. apply fold_left_app. Qed.






Lemma delete_absent {V} g (m : list (string * V)) :
  Js.get g m = None -> Js.delete g m = m.
Proof.
  induction m as [|[k v] m IH]; cbn; [reflexivity|].
  destruct (String.eqb g k); [discriminate|]. intros H. now rewrite IH.
Qed.

End Quiet.




(** X11. [join] of a guild that has no session, without [options.node],
    touches no session and no node and sends nothing. The node is the one
    [findIdealNode] selects for the region of [options.region || 'us'];
    after the [await], the pending join is registered for it with a timer
    of ten seconds and the promise stays open. When no node is selected
    the promise is rejected with 'No available voice nodes.' and nothing
    is registered. *)
Theorem X11_join_new_guild
    (w : PlayerManager.t) (g c : string) (o : option JoinOptions) (f : nat) :
  PlayerManager.idle w = true ->
  Js.get g (PlayerManager.players w) = None ->
  Js.or_null (jo_node (join_options o)) = None ->
  let promise := List.length (PlayerManager.promises w) in
  let region :=
    PlayerManager.regionFromData (Js.or_ostr (jo_region (join_options o)) "us") w in
  let w' := PlayerManager.turn (4 + f) w (PlayerManager.Join g c o) in
  PlayerManager.idle w' = true
  /\ same_sessions_and_nodes w w'
  /\ match PlayerManager.idealNodeOf region w with
     | Some n =>
         settlements promise w' = []
         /\ PlayerManager.pendingGuilds w'
            = Js.set g (new_entry w c (join_options o) n) (PlayerManager.pendingGuilds w)
         /\ PlayerManager.timers w' = PlayerManager.timers w ++ [join_timer w g]
     | None =>
         settlements promise w' = [PlayerManager.Rejected "No available voice nodes."]
         /\ PlayerManager.pendingGuilds w' = PlayerManager.pendingGuilds w
         /\ PlayerManager.timers w' = PlayerManager.timers w
     end.
Proof.
  intros Hidle Hg Ho. cbv zeta.
  destruct (idle_queues w Hidle) as [Ht Hj].
  remember (PlayerManager.turn (4 + f) w (PlayerManager.Join g c o)) as w' eqn:E.
  unfold same_sessions_and_nodes, new_entry, join_timer.
  destruct o as [o|]; cbn [join_options] in *.
  - crunch_in E ltac:(rewrite ?Hg, ?Ho, ?Ht, ?Hj, ?nth_error_snoc,
                        ?assign_snoc, ?idealNode_promises in E).
    destruct (PlayerManager.idealNodeOf _ w) as [n|] eqn:Hn;
      crunch_in E ltac:(rewrite ?Hg, ?Ho, ?Ht, ?Hj, ?nth_error_snoc,
                          ?assign_snoc in E);
      subst w'; unfold settlements, PlayerManager.idle, Js.deref; cbn;
      rewrite ?nth_error_snoc, ?Ht; repeat split.
  - crunch_in E ltac:(rewrite ?Hg, ?Ht, ?Hj, ?nth_error_snoc,
                        ?assign_snoc, ?idealNode_promises in E).
    destruct (PlayerManager.idealNodeOf _ w) as [n|] eqn:Hn;
      crunch_in E ltac:(rewrite ?Hg, ?Ht, ?Hj, ?nth_error_snoc,
                          ?assign_snoc in E);
      subst w'; unfold settlements, PlayerManager.idle, Js.deref; cbn;
      rewrite ?nth_error_snoc, ?Ht; repeat split.
Qed.

(** X11 for [join("g1", "c1")] on the pool. *)
Lemma X11_join_new_guild_witness :
  let w' := PlayerManager.turn (4 + 60) pool (PlayerManager.Join "g1" "c1" None) in
  PlayerManager.idle w' = true
  /\ same_sessions_and_nodes pool w'
  /\ settlements 0 w' = []
  /\ PlayerManager.pendingGuilds w'
     = Js.set "g1" (new_entry pool "c1" (join_options None) 0)
              (PlayerManager.pendingGuilds pool)
  /\ PlayerManager.timers w' = PlayerManager.timers pool ++ [join_timer pool "g1"].
Proof.
  exact (X11_join_new_guild pool "g1" "c1" None 60 eq_refl eq_refl eq_refl).
Defined.


(** X12. [join] with [options.node] does not select a node: the node of
    that host is taken as it is, connected or not, draining or not, and the
    pending join and its ten-second timer are registered in the call
    itself. When no node has that host the promise is rejected with the
    TypeError of reading [region] of undefined. *)
Theorem X12_join_named_node
    (w : PlayerManager.t) (g c host : string) (o : JoinOptions) (f : nat) :
  PlayerManager.idle w = true ->
  Js.get g (PlayerManager.players w) = None ->
  Js.or_null (jo_node o) = Some host ->
  let promise := List.length (PlayerManager.promises w) in
  let called := PlayerManager.callback
                  (PlayerManager.input (PlayerManager.Join g c (Some o))) w in
  let w' := PlayerManager.turn (3 + f) w (PlayerManager.Join g c (Some o)) in
  PlayerManager.idle w' = true
  /\ same_sessions_and_nodes w w'
  /\ match Js.get host (PlayerManager.nodes w) with
     | Some n =>
         w' = called
         /\ settlements promise w' = []
         /\ PlayerManager.pendingGuilds w'
            = Js.set g (new_entry w c o n) (PlayerManager.pendingGuilds w)
         /\ PlayerManager.timers w' = PlayerManager.timers w ++ [join_timer w g]
     | None =>
         settlements promise w'
         = [PlayerManager.Rejected
              "TypeError: Cannot read property 'region' of undefined"]
         /\ PlayerManager.pendingGuilds w' = PlayerManager.pendingGuilds w
         /\ PlayerManager.timers w' = PlayerManager.timers w
     end.
Proof.
  intros Hidle Hg Ho. cbv zeta.
  destruct (idle_queues w Hidle) as [Ht Hj].
  remember (PlayerManager.turn (3 + f) w (PlayerManager.Join g c (Some o))) as w' eqn:E.
  remember (PlayerManager.callback
              (PlayerManager.input (PlayerManager.Join g c (Some o))) w) as w0 eqn:E0.
  unfold same_sessions_and_nodes, new_entry, join_timer.
  destruct (Js.get host (PlayerManager.nodes w)) as [n|] eqn:Hn;
    crunch_in E ltac:(rewrite ?Hg, ?Ho, ?Hn, ?Ht, ?Hj, ?nth_error_snoc,
                        ?assign_snoc in E);
    crunch_in E0 ltac:(rewrite ?Hg, ?Ho, ?Hn, ?Ht, ?Hj, ?nth_error_snoc,
                         ?assign_snoc in E0);
    subst w' w0; unfold settlements, PlayerManager.idle, Js.deref; cbn;
    rewrite ?nth_error_snoc, ?Ht, ?Hj; repeat split.
Qed.

(** X12 for [join("g1", "c1", {node: "n1"})] on the pool. *)
Lemma X12_join_named_node_witness :
  let w' := PlayerManager.turn (3 + 60) pool
              (PlayerManager.Join "g1" "c1" (Some on_n1)) in
  PlayerManager.idle w' = true
  /\ same_sessions_and_nodes pool w'
  /\ w' = PlayerManager.callback
            (PlayerManager.input (PlayerManager.Join "g1" "c1" (Some on_n1))) pool
  /\ settlements 0 w' = []
  /\ PlayerManager.pendingGuilds w'
     = Js.set "g1" (new_entry pool "c1" on_n1 0) (PlayerManager.pendingGuilds pool)
  /\ PlayerManager.timers w' = PlayerManager.timers pool ++ [join_timer pool "g1"].
Proof.
  exact (X12_join_named_node pool "g1" "c1" "n1" on_n1 60 eq_refl eq_refl eq_refl).
Defined.


Section JoinTimer.

Lemma get_delete {V} g (m : list (string * V)) :
  NoDup (map fst m) -> Js.get g (Js.delete g m) = None.
Proof.
  induction m as [|[k v] m IH]; cbn; [reflexivity|].
  intros H. inversion H as [|? ? Hk Hm]; subst.
  destruct (String.eqb g k) eqn:E; cbn.
  - apply String.eqb_eq in E. subst k.
    clear IH H Hm. induction m as [|[k' v'] m IH]; cbn; [reflexivity|].
    destruct (String.eqb g k') eqn:E'.
    + apply String.eqb_eq in E'. subst. exfalso. apply Hk. now left.
    + apply IH. intros Hin. apply Hk. now right.
  - rewrite E. auto.
Qed.

Lemma deref_assign_other {A} (h : list A) : forall r r' x,
  r <> r' -> nth_error (Js.assign h r x) r' = nth_error h r'.
Proof.
  induction h as [|a h IH]; intros [|r] [|r'] x H; cbn; try reflexivity;
    try congruence.
  apply IH. congruence.
Qed.

End JoinTimer.

(** X13. The timer of a join deletes the pending entry of its guild
    whichever join registered it. When the entry belongs to a later join of
    the same guild, that join loses its entry though its promise is open
    and its own timer armed: the voice server update that comes next finds
    nothing and is dropped, and the later join can only time out. On the
    pool, a second [join("g1", "c1")] nine seconds after the first is
    rejected at 19 s although the voice server update came at 10 s. *)
Theorem X13_join_timer_deletes_any_entry
    (w : PlayerManager.t) (g : string) (promise : nat) (e : PendingJoin.t)
    (data : PlayerManager.VoiceServerUpdate) :
  Js.get g (PlayerManager.pendingGuilds w) = Some e ->
  PendingJoin.promise e <> promise ->
  NoDup (map fst (PlayerManager.pendingGuilds w)) ->
  Js.get g (PlayerManager.players w) = None ->
  PlayerManager.guild_id data = g ->
  let w1 := PlayerManager.exec (PlayerManager.joinTimeout g promise) w in
  Js.get g (PlayerManager.pendingGuilds w1) = None
  /\ settlements (PendingJoin.promise e) w1 = settlements (PendingJoin.promise e) w
  /\ PlayerManager.timers w1 = PlayerManager.timers w
  /\ PlayerManager.voiceServerUpdate data w1 = (PlayerManager.Returned tt, w1)
  /\ settlements 1 update_after_first_timer
     = [PlayerManager.Rejected "Voice connection timeout"]
  /\ PlayerManager.players update_after_first_timer = [].
Proof.
  intros He Hne Hnd Hg Hd. cbv zeta.
  assert (Hpe : PlayerManager.pendingGuilds
                  (PlayerManager.exec (PlayerManager.joinTimeout g promise) w)
                = Js.delete g (PlayerManager.pendingGuilds w)).
  { unfold PlayerManager.exec, PlayerManager.joinTimeout, PlayerManager.bind,
      PlayerManager.delete_pending, PlayerManager.settle, PlayerManager.modify.
    cbn. destruct (Js.deref _ promise) as [pr|]; [|reflexivity].
    destruct (PlayerManager.settled pr); reflexivity. }
  assert (Hpl : PlayerManager.players
                  (PlayerManager.exec (PlayerManager.joinTimeout g promise) w)
                = PlayerManager.players w).
  { unfold PlayerManager.exec, PlayerManager.joinTimeout, PlayerManager.bind,
      PlayerManager.delete_pending, PlayerManager.settle, PlayerManager.modify.
    cbn. destruct (Js.deref _ promise) as [pr|]; [|reflexivity].
    destruct (PlayerManager.settled pr); reflexivity. }
  assert (Hget : Js.get g (PlayerManager.pendingGuilds
                             (PlayerManager.exec (PlayerManager.joinTimeout g promise) w))
                 = None).
  { rewrite Hpe. now apply get_delete. }
  split; [exact Hget|]. split; [|split; [|split]].
  - unfold settlements, PlayerManager.exec, PlayerManager.joinTimeout,
      PlayerManager.bind, PlayerManager.delete_pending, PlayerManager.settle,
      PlayerManager.modify, Js.deref.
    cbn. destruct (nth_error _ promise) as [pr|] eqn:Hpr; [|reflexivity].
    destruct (PlayerManager.settled pr); cbn;
      rewrite deref_assign_other by congruence; reflexivity.
  - unfold PlayerManager.exec, PlayerManager.joinTimeout, PlayerManager.bind,
      PlayerManager.delete_pending, PlayerManager.settle, PlayerManager.modify.
    cbn. destruct (Js.deref _ promise) as [pr|]; [|reflexivity].
    destruct (PlayerManager.settled pr); reflexivity.
  - remember (PlayerManager.exec (PlayerManager.joinTimeout g promise) w) as w1.
    unfold PlayerManager.voiceServerUpdate, PlayerManager.bind, PlayerManager.pending,
      PlayerManager.gets, PlayerManager.ret.
    rewrite Hd. cbv beta iota. rewrite Hget. cbv beta iota.
    rewrite Hpl, Hg. cbv beta iota. rewrite Hget. reflexivity.
  - vm_compute. split; reflexivity.
Qed.

(** X13 for the two joins of "g1" and the timer of the first. *)
Lemma X13_join_timer_deletes_any_entry_witness :
  let w1 := PlayerManager.exec (PlayerManager.joinTimeout "g1" 0) joined_again in
  Js.get "g1" (PlayerManager.pendingGuilds w1) = None
  /\ settlements 1 w1 = settlements 1 joined_again
  /\ PlayerManager.timers w1 = PlayerManager.timers joined_again
  /\ PlayerManager.voiceServerUpdate (update "g1") w1 = (PlayerManager.Returned tt, w1)
  /\ settlements 1 update_after_first_timer
     = [PlayerManager.Rejected "Voice connection timeout"]
  /\ PlayerManager.players update_after_first_timer = [].
Proof.
  assert (H1 : Js.get "g1" (PlayerManager.pendingGuilds joined_again)
               = Some (new_entry
                         (PlayerManager.run fuel
                            [PlayerManager.Join "g1" "c1" None; PlayerManager.Wait 9000]
                            pool)
                         "c1" (join_options None) 0))
    by (vm_compute; reflexivity).
  assert (H3 : NoDup (map fst (PlayerManager.pendingGuilds joined_again))).
  { vm_compute. repeat constructor. intros []. }
  exact (X13_join_timer_deletes_any_entry joined_again "g1" 0 _ (update "g1")
           H1 ltac:(vm_compute; discriminate) H3 eq_refl eq_refl).
Defined.

Section Reconnect.

Import PlayerManager.



Lemma registered_once e e' f p :
  Player.registered e (Player.once e' f p)
  = Player.registered e p
      ++ (if Player.EventName_eqb e' e
          then [{| Player.ev := e'; Player.fn := f; Player.once_ := true |}]
          else []).
Proof.
  unfold Player.registered, Player.once. cbn. rewrite filter_app. cbn.
  destruct (Player.EventName_eqb e' e); reflexivity.
Qed.


Lemma nth_error_snoc2 {A} (h : list A) x y :
  nth_error ((h ++ [x]) ++ [y]) (S (List.length h)) = Some y.
Proof.
  replace (S (List.length h)) with (List.length (h ++ [x])).
  - apply nth_error_snoc.
  - rewrite length_app. cbn. lia.
Qed.


End Reconnect.

#[local] Hint Unfold PlayerManager.voiceServerUpdate
  PlayerManager.voiceServerUpdate_connect PlayerManager.pending
  PlayerManager.emit PlayerManager.call_closure PlayerManager.readyHandler
  PlayerManager.disconnectHandler PlayerManager.delete_pending
  PlayerManager.clearTimeout
  Player.connect Player.queueEvent Player.sendEvent Player.checkEventQueue
  Player.registered Player.once Player.on Player.remove_wrapper
  Player.removeListener : manager.




Section Handshake.


Lemma set_set {V} g (v v' : V) m : Js.set g v (Js.set g v' m) = Js.set g v m.
Proof.
  induction m as [|[k u] m IH]; cbn.
  - now rewrite String.eqb_refl.
  - destruct (String.eqb g k) eqn:E; cbn; rewrite ?String.eqb_refl, ?E;
      [reflexivity|].
    now rewrite IH.
Qed.

End Handshake.

#[local] Hint Unfold PlayerManager.newPlayer Player.new : manager.




#[local] Arguments PlayerManager.switchNode : simpl never.

(** X17. [play(track, options)] on a session whose node is draining sends
    nothing to the node: the session is handed to [switchNode] without a
    leave, so it leaves the map of players and a join of its guild and
    channel is scheduled for the next tick. The position is set to 0 first,
    so the join carries the new track and the position
    [reconnectThreshold] (2000 ms by default): the track will start that
    far in, on the node the join selects. *)
Theorem X17_play_on_draining_node
    (w : PlayerManager.t) (r : nat) (p : Player.t) (n : Lavalink.t)
    (track : option string) (o : option PlayOptions) :
  nth_error (PlayerManager.playerHeap w) r = Some p ->
  nth_error (PlayerManager.nodeHeap w) (Player.node p) = Some n ->
  Lavalink.draining n = true ->
  exists w',
    PlayerManager.call r (Player.Play track o) w = (PlayerManager.Returned tt, w')
    /\ PlayerManager.nodeHeap w' = PlayerManager.nodeHeap w
    /\ PlayerManager.trace w' = PlayerManager.trace w
    /\ PlayerManager.players w' = Js.delete (Player.guildId p) (PlayerManager.players w)
    /\ PlayerManager.ticks w'
       = PlayerManager.ticks w
           ++ [PlayerManager.SwitchNodeJoin r (Player.guildId p) (Player.channelId p)
                 track (Player.paused p)
                 (Js.or_num (PlayerManager.reconnectThreshold (PlayerManager.options w))
                            2000)]
    /\ nth_error (PlayerManager.playerHeap w') r
       = Some (migrating (List.length (PlayerManager.closures w)) (redirected track o p)).
Proof.
  intros Hp Hn Hd.
  assert (D : forall y, nth_error (Js.assign (PlayerManager.playerHeap w) r y) r = Some y).
  { intros y. eapply deref_assign, Hp. }
  remember (PlayerManager.call r (Player.Play track o) w) as res eqn:E.
  unfold PlayerManager.call in E.
  crunch_with E ltac:(fun E => rewrite ?Hp, ?Hn, ?Hd in E).
  unfold Player.call, Player.play in E.
  crunch_with E ltac:(fun E => rewrite ?Hp, ?Hn, ?Hd in E).
  match type of E with
  | _ = (let (_, _) := PlayerManager.switchNode r false ?W in _) =>
      destruct (switchNode_sync W r (redirected track o p) false (D _))
        as (w' & E' & H1 & H2 & H3 & H4 & H5 & H6 & H7 & H8);
      rewrite E' in E
  end.
  subst res. exists w'. split; [reflexivity|].
  rewrite H6, H5, H2, H4. cbn.
  unfold leave_message, resume_position. cbn.
  rewrite app_nil_r. repeat split. exact H1.
Qed.

(** X17 for the session of scenario A, once its node is draining. *)
Lemma X17_play_on_draining_node_witness :
  exists w',
    PlayerManager.call 0 (Player.Play (Some "next") None) draining_A
    = (PlayerManager.Returned tt, w')
    /\ PlayerManager.nodeHeap w' = PlayerManager.nodeHeap draining_A
    /\ PlayerManager.trace w' = PlayerManager.trace draining_A
    /\ PlayerManager.players w'
       = Js.delete (Player.guildId (session_at 0 draining_A))
                   (PlayerManager.players draining_A)
    /\ PlayerManager.ticks w'
       = PlayerManager.ticks draining_A
           ++ [PlayerManager.SwitchNodeJoin 0
                 (Player.guildId (session_at 0 draining_A))
                 (Player.channelId (session_at 0 draining_A))
                 (Some "next") (Player.paused (session_at 0 draining_A))
                 (Js.or_num (PlayerManager.reconnectThreshold
                               (PlayerManager.options draining_A)) 2000)]
    /\ nth_error (PlayerManager.playerHeap w') 0
       = Some (migrating (List.length (PlayerManager.closures draining_A))
                 (redirected (Some "next") None (session_at 0 draining_A))).
Proof.
  apply (X17_play_on_draining_node draining_A 0 (session_at 0 draining_A)
           (drained (node_at 0 scenario_A)) (Some "next") None);
    vm_compute; reflexivity.
Defined.

Section RemoveNode.

Import PlayerManager.

Context {X : Type} (proj : t -> list X).

Lemma keeps_grows {A} (c : M A) : keeps proj c -> grows proj c.
Proof. intros H w. exists []. now rewrite app_nil_r. Qed.

Lemma grows_bind {A B} (c : M A) (k : A -> M B) :
  grows proj c -> (forall a, grows proj (k a)) -> grows proj (bind c k).
Proof.
  intros Hc Hk w. unfold bind. destruct (Hc w) as [l Hl].
  destruct (c w) as [[a|e] w1]; cbn in *.
  - destruct (Hk a w1) as [l' Hl']. exists (l ++ l').
    now rewrite Hl', Hl, app_assoc.
  - now exists l.
Qed.

Lemma grows_for_of {A} (l : list A) (body : A -> M unit) :
  (forall x, grows proj (body x)) -> grows proj (for_of l body).
Proof.
  intros Hb. induction l as [|x l IH]; cbn [for_of].
  - apply keeps_grows, keeps_ret.
  - apply grows_bind; auto.
Qed.

End RemoveNode.

Section RemoveNodeFrame.

Import PlayerManager.

(** [updateVoiceState] reaches the gateway only. *)
Lemma updateVoiceState_keeps {X} (proj : t -> X) r c m d :
  (forall w v, proj (set_playerHeap v w) = proj w) ->
  (forall w v, proj (set_trace v w) = proj w) ->
  keeps proj (invoke_plain r (Player.updateVoiceState c m d)).
Proof.
  intros H1 H2 w. unfold invoke_plain, invoke, bind, getPlayer.
  destruct (Js.deref (playerHeap w) r) as [p|]; [|reflexivity].
  unfold Player.updateVoiceState, Player.perform, Player.skip.
  destruct (Shard.sendWS (Player.shard p)); cbn; now rewrite ?H2, ?H1.
Qed.

Lemma switchNode_keeps {X} (proj : t -> X) r leave :
  (forall w v, proj (set_playerHeap v w) = proj w) ->
  (forall w v, proj (set_trace v w) = proj w) ->
  (forall w v, proj (set_closures v w) = proj w) ->
  (forall w v, proj (set_players v w) = proj w) ->
  (forall w v, proj (set_ticks v w) = proj w) ->
  keeps proj (switchNode r leave).
Proof.
  intros H1 H2 H3 H4 H5. unfold switchNode.
  apply keeps_bind; [intros w; unfold getPlayer; destruct (Js.deref _ _); reflexivity|].
  intros p. apply keeps_bind; [apply keeps_gets|intros threshold].
  assert (U : forall f, keeps proj (update_player r f)).
  { intros f w. unfold update_player, bind, getPlayer, setPlayer, modify.
    destruct (Js.deref _ _); cbn; [apply H1 | reflexivity]. }
  apply keeps_bind; [apply keeps_for_of; intros l; apply U|intros _].
  apply keeps_bind;
    [intros w; unfold newClosure; cbn; apply H3|intros restore].
  apply keeps_bind; [apply U|intros _].
  apply keeps_bind; [apply keeps_modify; intros w; apply H4|intros _].
  apply keeps_bind; [apply U|intros _].
  apply keeps_bind;
    [destruct leave; [now apply updateVoiceState_keeps | apply keeps_ret]|intros _].
  unfold nextTick. apply keeps_modify. intros w. apply H5.
Qed.

Lemma queueFailover_grows_timers fn : grows timers (queueFailover fn).
Proof.
  unfold queueFailover.
  apply grows_bind; [apply keeps_grows, keeps_gets|intros queue].
  destruct (0 <? List.length queue)%nat.
  - apply keeps_grows, keeps_modify. reflexivity.
  - unfold processQueue.
    apply grows_bind; [apply keeps_grows, keeps_modify; reflexivity|intros _].
    apply grows_bind;
      [apply keeps_grows, switchNode_keeps; reflexivity|intros _].
    apply grows_bind; [apply keeps_grows, keeps_gets|intros rate].
    apply grows_bind; [|intros h; apply keeps_grows, keeps_ret].
    intros w. eexists. reflexivity.
Qed.

Lemma queueFailover_keeps {X} (proj : t -> X) fn :
  (forall w v, proj (set_playerHeap v w) = proj w) ->
  (forall w v, proj (set_trace v w) = proj w) ->
  (forall w v, proj (set_closures v w) = proj w) ->
  (forall w v, proj (set_players v w) = proj w) ->
  (forall w v, proj (set_ticks v w) = proj w) ->
  (forall w v, proj (set_failoverQueue v w) = proj w) ->
  (forall w v, proj (set_timers v w) = proj w) ->
  (forall w v, proj (set_handles v w) = proj w) ->
  keeps proj (queueFailover fn).
Proof.
  intros H1 H2 H3 H4 H5 H6 H7 H8. unfold queueFailover.
  apply keeps_bind; [apply keeps_gets|intros queue].
  destruct (0 <? List.length queue)%nat.
  - apply keeps_modify. intros w. apply H6.
  - unfold processQueue.
    apply keeps_bind; [apply keeps_modify; intros w; apply H2|intros _].
    apply keeps_bind; [now apply switchNode_keeps|intros _].
    apply keeps_bind; [apply keeps_gets|intros rate].
    apply keeps_bind; [|intros h; apply keeps_ret].
    intros w. unfold setTimeout. cbn. now rewrite H7, H8.
Qed.

Lemma onDisconnect_grows_timers r : grows timers (onDisconnect r).
Proof.
  unfold onDisconnect.
  apply grows_bind;
    [apply keeps_grows; intros w; unfold getNode; destruct (Js.deref _ _); reflexivity|].
  intros n. apply grows_bind; [apply keeps_grows, keeps_gets|intros ps].
  apply grows_for_of. intros [player p]. apply queueFailover_grows_timers.
Qed.

Lemma onDisconnect_keeps {X} (proj : t -> X) r :
  (forall w v, proj (set_playerHeap v w) = proj w) ->
  (forall w v, proj (set_trace v w) = proj w) ->
  (forall w v, proj (set_closures v w) = proj w) ->
  (forall w v, proj (set_players v w) = proj w) ->
  (forall w v, proj (set_ticks v w) = proj w) ->
  (forall w v, proj (set_failoverQueue v w) = proj w) ->
  (forall w v, proj (set_timers v w) = proj w) ->
  (forall w v, proj (set_handles v w) = proj w) ->
  keeps proj (onDisconnect r).
Proof.
  intros. unfold onDisconnect.
  apply keeps_bind;
    [intros w; unfold getNode; destruct (Js.deref _ _); reflexivity|].
  intros n. apply keeps_bind; [apply keeps_gets|intros ps].
  apply keeps_for_of. intros [player p]. now apply queueFailover_keeps.
Qed.

End RemoveNodeFrame.

#[local] Arguments PlayerManager.onDisconnect : simpl never.
#[local] Hint Unfold PlayerManager.node_method PlayerManager.node_effect : manager.

(** X16. [removeNode("")] does nothing, and [removeNode] of a host that no
    node has throws before anything changed. For the host of a node, the
    node leaves the map of nodes, and [destroy] detached the listener of
    'close' from its socket: when the socket closes, nothing is emitted and
    no redial is scheduled. But no timer is cleared: when the node was
    down, the reconnect timer it had armed stays armed, and when it fires
    the node that was removed dials again and arms the next one. *)
Theorem X16_removeNode (w : PlayerManager.t) (host : string) (r : nat) (n : Lavalink.t) :
  Js.get host (PlayerManager.nodes w) = Some r ->
  nth_error (PlayerManager.nodeHeap w) r = Some n ->
  Js.truthy_str host = true ->
  let w' := PlayerManager.exec (PlayerManager.removeNode host) w in
  PlayerManager.nodes w' = Js.delete host (PlayerManager.nodes w)
  /\ nth_error (PlayerManager.nodeHeap w') r = Some (fst (Lavalink.destroy n))
  /\ PlayerManager.socket_close r w' = (PlayerManager.Returned tt, w')
  /\ (forall tm, In tm (PlayerManager.timers w) -> In tm (PlayerManager.timers w'))
  /\ (let w2 := PlayerManager.exec (PlayerManager.run_timer (PlayerManager.Reconnect r)) w' in
      option_map Lavalink.ws (nth_error (PlayerManager.nodeHeap w2) r)
      = Some (Some {| Lavalink.frames := []; Lavalink.closeListener := true |})
      /\ exists tm, In tm (PlayerManager.timers w2)
                    /\ PlayerManager.task tm = PlayerManager.Reconnect r
                    /\ PlayerManager.handle tm = PlayerManager.handles w')
  /\ PlayerManager.removeNode "" w = (PlayerManager.Returned tt, w)
  /\ (forall host', Js.truthy_str host' = true ->
                    Js.get host' (PlayerManager.nodes w) = None ->
                    exists e, PlayerManager.removeNode host' w = (PlayerManager.Thrown e, w)).
Proof.
  intros Hg Hn Hh. cbv zeta. unfold PlayerManager.exec.
  remember (PlayerManager.removeNode host w) as res eqn:E.
  unfold PlayerManager.removeNode in E.
  remember (fst (Lavalink.destroy n)) as n' eqn:En'.
  assert (Hd : Lavalink.destroy n
               = (n', match Lavalink.ws n with
                      | Some _ => [Lavalink.CloseSocket]
                      | None => []
                      end)).
  { subst n'. unfold Lavalink.destroy. destruct (Lavalink.ws n); reflexivity. }
  crunch_with E ltac:(fun E => rewrite ?Hg, ?Hh, ?Hn, ?Hd in E).
  assert (E' : exists w1,
             res = PlayerManager.onDisconnect r w1
             /\ PlayerManager.nodes w1 = Js.delete host (PlayerManager.nodes w)
             /\ PlayerManager.nodeHeap w1
                = Js.assign (PlayerManager.nodeHeap w) r n'
             /\ PlayerManager.timers w1 = PlayerManager.timers w
             /\ PlayerManager.handles w1 = PlayerManager.handles w).
  { destruct (Lavalink.ws n); cbn in E; eexists; (split; [exact E|]); repeat split. }
  clear E. destruct E' as (w1 & E & Hn1 & Hh1 & Ht1 & Hha1). subst res.
  assert (Hnodes : PlayerManager.nodes (snd (PlayerManager.onDisconnect r w1))
                   = PlayerManager.nodes w1)
    by (apply onDisconnect_keeps; reflexivity).
  assert (Hheap : PlayerManager.nodeHeap (snd (PlayerManager.onDisconnect r w1))
                  = PlayerManager.nodeHeap w1)
    by (apply onDisconnect_keeps; reflexivity).
  destruct (onDisconnect_grows_timers r w1) as [l Hl].
  assert (Hr : nth_error (PlayerManager.nodeHeap w1) r = Some n').
  { rewrite Hh1. eapply deref_assign, Hn. }
  remember (snd (PlayerManager.onDisconnect r w1)) as w' eqn:Ew'. clear Ew'.
  split; [now rewrite Hnodes|]. split; [now rewrite Hheap|].
  split; [|split; [|split; [|split]]].
  - unfold PlayerManager.socket_close, PlayerManager.bind, PlayerManager.getNode, Js.deref.
    rewrite Hheap, Hr. rewrite En'. unfold Lavalink.destroy.
    destruct (Lavalink.ws n) eqn:Hws; cbn; rewrite ?Hws; reflexivity.
  - intros tm Hin. rewrite Hl, Ht1. apply in_or_app. left. exact Hin.
  - remember (PlayerManager.run_timer (PlayerManager.Reconnect r) w') as res eqn:E2.
    unfold PlayerManager.run_timer in E2.
    assert (D : forall y, nth_error (Js.assign (PlayerManager.nodeHeap w1) r y) r = Some y).
    { intros y. eapply deref_assign, Hr. }
    crunch_with E2 ltac:(fun E => rewrite ?Hheap, ?Hr, ?D in E).
    subst res. cbn. rewrite D. cbn.
    split; [reflexivity|].
    eexists. split; [apply in_or_app; right; left; reflexivity|]. split; reflexivity.
  - reflexivity.
  - intros host' Hh' Hg'.
    unfold PlayerManager.removeNode, PlayerManager.bind, PlayerManager.gets.
    rewrite Hg', Hh'. cbn. eexists. reflexivity.
Qed.

(** X16 for the node of scenario A, once its socket closed. *)
Lemma X16_removeNode_witness :
  let w' := PlayerManager.exec (PlayerManager.removeNode "n1") down_A in
  PlayerManager.nodes w' = Js.delete "n1" (PlayerManager.nodes down_A)
  /\ nth_error (PlayerManager.nodeHeap w') 0
     = Some (fst (Lavalink.destroy (node_at 0 down_A)))
  /\ PlayerManager.socket_close 0 w' = (PlayerManager.Returned tt, w')
  /\ (forall tm, In tm (PlayerManager.timers down_A) -> In tm (PlayerManager.timers w'))
  /\ (let w2 := PlayerManager.exec
                  (PlayerManager.run_timer (PlayerManager.Reconnect 0)) w' in
      option_map Lavalink.ws (nth_error (PlayerManager.nodeHeap w2) 0)
      = Some (Some {| Lavalink.frames := []; Lavalink.closeListener := true |})
      /\ exists tm, In tm (PlayerManager.timers w2)
                    /\ PlayerManager.task tm = PlayerManager.Reconnect 0
                    /\ PlayerManager.handle tm = PlayerManager.handles w')
  /\ PlayerManager.removeNode "" down_A = (PlayerManager.Returned tt, down_A)
  /\ (forall host', Js.truthy_str host' = true ->
                    Js.get host' (PlayerManager.nodes down_A) = None ->
                    exists e, PlayerManager.removeNode host' down_A
                              = (PlayerManager.Thrown e, down_A)).
Proof.
  apply (X16_removeNode down_A "n1" 0 (node_at 0 down_A)); vm_compute; reflexivity.
Defined.

(** ** The messages of a node *)

#[local] Hint Unfold PlayerManager.onMessage PlayerManager.messageListener
  PlayerManager.call Player.call Player.stateUpdate Player.onTrackEnd : manager.

(** X18. The listener that [createNode] registers for the messages of a
    node is [onMessage.bind(this, node)]: [onMessage] reads the node as its
    message, finds no [op] and returns, so no message of a node reaches a
    session. Called with the message itself, [onMessage] replaces the state
    of the session of the guild on a [playerUpdate], hands a
    [TrackEndEvent] to [onTrackEnd], and drops a message without [op] or a
    message of a guild that has no session. *)
Theorem X18_onMessage
    (w : PlayerManager.t) (m : PlayerManager.Message) (r : nat) (p : Player.t) :
  Js.get (PlayerManager.m_guildId m) (PlayerManager.players w) = Some r ->
  nth_error (PlayerManager.playerHeap w) r = Some p ->
  Player.registered Player.EvEnd p = [] ->
  (forall node, PlayerManager.messageListener node m w = (PlayerManager.Returned tt, w))
  /\ (PlayerManager.m_op m = Some "playerUpdate" ->
      PlayerManager.onMessage (PlayerManager.Parsed m) w
      = (PlayerManager.Returned tt,
         PlayerManager.set_playerHeap
           (Js.assign (PlayerManager.playerHeap w) r
                      (Player.set_state (PlayerManager.m_state m) p)) w))
  /\ (PlayerManager.m_op m = Some "event" ->
      PlayerManager.m_type m = Some "TrackEndEvent" ->
      PlayerManager.onMessage (PlayerManager.Parsed m) w
      = (PlayerManager.Returned tt,
         PlayerManager.set_trace
           (PlayerManager.trace w
              ++ [(PlayerManager.now w,
                   PlayerManager.Emitted r Player.EvEnd
                     (Some (PlayerManager.m_reason m)))])
           (PlayerManager.set_playerHeap
              (Js.assign (PlayerManager.playerHeap w) r
                         (fst (Player.onTrackEnd (PlayerManager.m_reason m) p))) w)))
  /\ (Js.or_null (PlayerManager.m_op m) = None ->
      PlayerManager.onMessage (PlayerManager.Parsed m) w = (PlayerManager.Returned tt, w))
  /\ (forall w0, Js.get (PlayerManager.m_guildId m) (PlayerManager.players w0) = None ->
                 PlayerManager.onMessage (PlayerManager.Parsed m) w0
                 = (PlayerManager.Returned tt, w0)).
Proof.
  intros Hg Hp Hend.
  assert (D : forall y, nth_error (Js.assign (PlayerManager.playerHeap w) r y) r = Some y).
  { intros y. eapply deref_assign, Hp. }
  unfold Player.registered in Hend.
  split; [reflexivity|]. split; [|split; [|split]].
  - intros Hop.
    remember (PlayerManager.onMessage (PlayerManager.Parsed m) w) as res eqn:E.
    crunch_with E ltac:(fun E => rewrite ?Hop, ?Hg, ?Hp in E).
    exact E.
  - intros Hop Hty.
    remember (PlayerManager.onMessage (PlayerManager.Parsed m) w) as res eqn:E.
    unfold Player.onTrackEnd.
    destruct (String.eqb (PlayerManager.m_reason m) "REPLACED") eqn:Hr;
      crunch_with E ltac:(fun E => rewrite ?Hop, ?Hty, ?Hg, ?Hp, ?Hr, ?D, ?Hend,
                                     ?assign_assign in E);
      subst res; unfold_methods; destruct w; reflexivity.
  - intros Hop. unfold PlayerManager.onMessage. now rewrite Hop.
  - intros w0 Hg0. unfold PlayerManager.onMessage.
    destruct (Js.or_null (PlayerManager.m_op m)) as [op|]; [|reflexivity].
    destruct (String.eqb op "playerUpdate").
    + unfold PlayerManager.bind, PlayerManager.gets. now rewrite Hg0.
    + destruct (String.eqb op "event"); [|reflexivity].
      unfold PlayerManager.bind, PlayerManager.gets. now rewrite Hg0.
Qed.

(** X18 for the session of scenario A and a report of the position 5000. *)
Lemma X18_onMessage_witness :
  (forall node, PlayerManager.messageListener node position_5000 scenario_A
                = (PlayerManager.Returned tt, scenario_A))
  /\ PlayerManager.onMessage (PlayerManager.Parsed position_5000) scenario_A
     = (PlayerManager.Returned tt,
        PlayerManager.set_playerHeap
          (Js.assign (PlayerManager.playerHeap scenario_A) 0
                     (Player.set_state {| Player.position := Some 5000 |}
                                       (session_at 0 scenario_A)))
          scenario_A).
Proof.
  assert (H1 : Js.get (PlayerManager.m_guildId position_5000)
                      (PlayerManager.players scenario_A) = Some 0%nat)
    by (vm_compute; reflexivity).
  assert (H2 : nth_error (PlayerManager.playerHeap scenario_A) 0
               = Some (session_at 0 scenario_A)) by (vm_compute; reflexivity).
  assert (H3 : Player.registered Player.EvEnd (session_at 0 scenario_A) = [])
    by (vm_compute; reflexivity).
  destruct (X18_onMessage scenario_A position_5000 0 (session_at 0 scenario_A)
              H1 H2 H3) as (A & B & _).
  split; [exact A | exact (B eq_refl)].
Defined.

(** ** What holds in every state the coordinator reaches *)

Section Invariant.

Import PlayerManager.

Lemma Forall_assign {A} (P : A -> Prop) h : forall r x,
  Forall P h -> P x -> Forall P (Js.assign h r x).
Proof.
  induction h as [|a h IH]; intros [|r] x H Hx; cbn; auto;
    inversion H; subst; constructor; auto.
Qed.

Lemma NoDup_snoc {A} (l : list A) x : NoDup l -> ~ In x l -> NoDup (l ++ [x]).
Proof.
  induction l as [|a l IH]; cbn; intros H Hx.
  - repeat constructor. intros [].
  - inversion H; subst. constructor.
    + rewrite in_app_iff. cbn. intuition.
    + apply IH; intuition.
Qed.

Lemma set_keys {V} k (v : V) m :
  map fst (Js.set k v m) = map fst m
  \/ (~ In k (map fst m) /\ map fst (Js.set k v m) = map fst m ++ [k]).
Proof.
  induction m as [|[k' v'] m IH]; cbn.
  - right. split; [intros []|reflexivity].
  - destruct (String.eqb k k') eqn:E; cbn.
    + apply String.eqb_eq in E. subst. now left.
    + apply String.eqb_neq in E.
      destruct IH as [IH|[Hn IH]]; rewrite IH; [now left|].
      right. split; [|reflexivity]. intros [H|H]; [congruence|auto].
Qed.

Lemma unique_set {V} k (v : V) m : unique_keys m -> unique_keys (Js.set k v m).
Proof.
  unfold unique_keys. intros H.
  destruct (set_keys k v m) as [E|[Hn E]]; rewrite E; [exact H|].
  now apply NoDup_snoc.
Qed.

Lemma delete_keys {V} k (m : list (string * V)) x :
  In x (map fst (Js.delete k m)) -> In x (map fst m).
Proof.
  induction m as [|[k' v'] m IH]; cbn; [auto|].
  destruct (String.eqb k k'); cbn; intuition.
Qed.

Lemma unique_delete {V} k (m : list (string * V)) :
  unique_keys m -> unique_keys (Js.delete k m).
Proof.
  unfold unique_keys. induction m as [|[k' v'] m IH]; cbn; intros H; [exact H|].
  inversion H; subst.
  destruct (String.eqb k k'); cbn; [assumption|].
  constructor; auto. intros Hin. apply delete_keys in Hin. auto.
Qed.

(** *** The monad *)

Lemma preserves_ret {A} (a : A) : preserves (ret a).
Proof. intros w H. exact H. Qed.

Lemma preserves_throw {A} e : preserves (@throw A e).
Proof. intros w H. exact H. Qed.

Lemma preserves_gets {A} (f : t -> A) : preserves (gets f).
Proof. intros w H. exact H. Qed.

Lemma preserves_modify f :
  (forall w, well_formed w -> well_formed (f w)) -> preserves (modify f).
Proof. intros H w Hw. apply H, Hw. Qed.

Lemma preserves_bind {A B} (c : M A) (k : A -> M B) :
  preserves c -> (forall a, preserves (k a)) -> preserves (bind c k).
Proof.
  intros Hc Hk w Hw. unfold bind. specialize (Hc w Hw).
  destruct (c w) as [[a|e] w']; cbn in *; [|exact Hc].
  now apply Hk.
Qed.

Lemma preserves_catch {A} (c : M A) (h : string -> M A) :
  preserves c -> (forall e, preserves (h e)) -> preserves (catch c h).
Proof.
  intros Hc Hh w Hw. unfold catch. specialize (Hc w Hw).
  destruct (c w) as [[a|e] w']; cbn in *; [exact Hc|].
  now apply Hh.
Qed.

Lemma preserves_for_of {A} (l : list A) (body : A -> M unit) :
  (forall x, preserves (body x)) -> preserves (for_of l body).
Proof.
  intros Hb. induction l as [|x l IH]; cbn [for_of].
  - apply preserves_ret.
  - apply preserves_bind; auto.
Qed.

(** *** The heap of sessions *)

Lemma preserves_getPlayer {B} r (k : Player.t -> M B) :
  (forall p, settled_session p -> preserves (k p)) ->
  preserves (bind (getPlayer r) k).
Proof.
  intros Hk w Hw. unfold bind, getPlayer, Js.deref.
  destruct (nth_error (playerHeap w) r) as [p|] eqn:E; [|exact Hw].
  apply Hk; [|exact Hw].
  destruct Hw as (_ & Hh & _).
  rewrite Forall_forall in Hh. apply Hh. eapply nth_error_In, E.
Qed.

Lemma preserves_getNode {B} r (k : Lavalink.t -> M B) :
  (forall n, counting n -> preserves (k n)) ->
  preserves (bind (getNode r) k).
Proof.
  intros Hk w Hw. unfold bind, getNode, Js.deref.
  destruct (nth_error (nodeHeap w) r) as [n|] eqn:E; [|exact Hw].
  apply Hk; [|exact Hw].
  destruct Hw as (_ & _ & Hh & _).
  rewrite Forall_forall in Hh. apply Hh. eapply nth_error_In, E.
Qed.

Lemma preserves_setNode r n : counting n -> preserves (setNode r n).
Proof.
  intros Hn w (H1 & H2 & H3 & H4). unfold setNode, modify. cbn.
  split; [exact H1|]. split; [exact H2|]. split; [|exact H4].
  now apply Forall_assign.
Qed.

Lemma preserves_newNode {B} n (k : nat -> M B) :
  counting n -> (forall r, preserves (k r)) ->
  preserves (bind (newNode n) k).
Proof.
  intros Hn Hk w (H1 & H2 & H3 & H4). unfold bind, newNode. cbn.
  apply Hk. split; [exact H1|]. split; [exact H2|]. split; [|exact H4].
  apply Forall_app. split; [exact H3|]. now constructor.
Qed.

Lemma preserves_setPlayer r p : settled_session p -> preserves (setPlayer r p).
Proof.
  intros Hp w (H1 & H2 & H3). unfold setPlayer, modify. cbn.
  split; [exact H1|]. split; [|exact H3]. now apply Forall_assign.
Qed.

Lemma preserves_update_player r f :
  (forall p, settled_session p -> settled_session (f p)) ->
  preserves (update_player r f).
Proof.
  intros Hf. unfold update_player. apply preserves_getPlayer.
  intros p Hp. apply preserves_setPlayer, Hf, Hp.
Qed.

Lemma preserves_newPlayer {B} p (k : nat -> M B) :
  settled_session p -> (forall r, preserves (k r)) ->
  preserves (bind (newPlayer p) k).
Proof.
  intros Hp Hk w (H1 & H2 & H3). unfold bind, newPlayer. cbn.
  apply Hk. split; [exact H1|]. split; [|exact H3].
  apply Forall_app. split; [exact H2|]. now constructor.
Qed.

(** The listeners of a session are no part of [settled_session]. *)
Lemma settled_listeners l p : settled_session p -> settled_session (Player.set_listeners l p).
Proof. intros H. exact H. Qed.

End Invariant.

Section InvariantSession.

Import PlayerManager.

(** Every method of a session keeps it settled: [queueEvent] only puts
    a payload on the queue when the queue is not empty. *)
Lemma call_settled c draining now p :
  settled_session p -> settled_session (fst (Player.call c draining now p)).
Proof.
  unfold settled_session, consistent.
  destruct p as [? ? ? ? ? ? ? playing paused ? ? ? queue ? ? ? ?]. cbn.
  intros [-> Hc].
  destruct c; cbn; unfold_methods; split_ifs; cbn; auto;
    try (split; [reflexivity|]);
    try reflexivity; try assumption;
    try (destruct paused; reflexivity);
    try (destruct pause_; reflexivity);
    destruct playing, paused; cbn in *; congruence.
Qed.

Lemma checkEventQueue_settled p :
  settled_session p -> settled_session (fst (Player.checkEventQueue p)).
Proof.
  unfold settled_session, Player.checkEventQueue. intros [Hq Hc].
  rewrite Hq. cbn. now rewrite Hq.
Qed.

Lemma new_settled id_ o now : settled_session (Player.new id_ o now).
Proof. split; reflexivity. Qed.

(** The methods of a node keep its retry counter from going negative. *)
Lemma send_counting d n : counting n -> counting (Lavalink.send d n).
Proof. unfold counting, Lavalink.send. destruct (Lavalink.ws n); auto. Qed.

Lemma node_methods_counting n :
  counting n ->
  counting (fst (Lavalink.ready n))
  /\ counting (fst (Lavalink.disconnected n))
  /\ counting (fst (Lavalink.reconnect n))
  /\ counting (fst (Lavalink.destroy n)).
Proof.
  unfold counting, Lavalink.ready, Lavalink.disconnected, Lavalink.reconnect,
    Lavalink.destroy.
  intros H. cbn.
  destruct (Lavalink.reconnectInterval n), (Lavalink.ws n); cbn; repeat split; lia.
Qed.

Lemma new_counting o : counting (Lavalink.new o).
Proof. unfold counting. cbn. lia. Qed.

End InvariantSession.

(** A step of a proof that a computation keeps the world well formed:
    along the binds, loops and branches, down to the primitives. *)
Ltac pres_frame :=
  let w := fresh "w" in
  let H := fresh "H" in
  intros w H;
  repeat match goal with
         | |- context [match ?x with _ => _ end] => destruct x
         end;
  exact H.

Ltac pres_step :=
  first
    [ assumption
    | apply preserves_ret | apply preserves_throw | apply preserves_gets
    | apply preserves_getPlayer; intros ? ?
    | apply preserves_getNode; intros ? ?
    | apply preserves_bind; [|intros ?]
    | apply preserves_catch; [|intros ?]
    | apply preserves_for_of; intros ?
    | apply preserves_modify; pres_frame
    | match goal with
      | |- preserves (match ?x with _ => _ end) => destruct x
      | |- preserves (if ?b then _ else _) => destruct b
      | |- preserves (let '(_, _) := ?x in _) => destruct x eqn:?
      end ].

Create HintDb pres.

Section InvariantCoordinator.

Import PlayerManager.

Lemma preserves_fun {A} (c : M A) :
  (forall w, well_formed w -> well_formed (snd (c w))) -> preserves c.
Proof. auto. Qed.

Lemma preserves_observe o : preserves (observe o).
Proof. unfold observe. repeat pres_step. Qed.

Lemma preserves_nextTick k : preserves (nextTick k).
Proof. unfold nextTick. repeat pres_step. Qed.

Lemma preserves_enqueueJob j : preserves (enqueueJob j).
Proof. unfold enqueueJob. repeat pres_step. Qed.

Lemma preserves_setTimeout k d : preserves (setTimeout k d).
Proof. intros w H. exact H. Qed.

Lemma preserves_clearTimeout h : preserves (clearTimeout h).
Proof. unfold clearTimeout. repeat pres_step. Qed.

Lemma preserves_newClosure c : preserves (newClosure c).
Proof. intros w H. exact H. Qed.

Lemma preserves_newPromise k : preserves (newPromise k).
Proof. intros w H. exact H. Qed.

Lemma preserves_readNode r : preserves (getNode r).
Proof. intros w H. unfold getNode. destruct (Js.deref _ _); exact H. Qed.

Lemma preserves_settle promise s : preserves (settle promise s).
Proof. unfold settle. repeat pres_step. Qed.

Lemma preserves_pending g : preserves (pending g).
Proof. unfold pending. repeat pres_step. Qed.

Lemma preserves_delete_pending g : preserves (delete_pending g).
Proof.
  unfold delete_pending. apply preserves_modify.
  intros w (H1 & H2 & H3 & H4 & H5 & H6). repeat split; auto.
  now apply unique_delete.
Qed.

#[local] Hint Resolve preserves_observe preserves_nextTick preserves_enqueueJob
  preserves_setTimeout preserves_clearTimeout preserves_newClosure
  preserves_newPromise preserves_readNode preserves_settle
  preserves_pending preserves_delete_pending : pres.

Lemma preserves_listener r (f : Player.t -> Player.t) :
  (forall p, Player.sendQueue (f p) = Player.sendQueue p
             /\ Player.playing (f p) = Player.playing p
             /\ Player.paused (f p) = Player.paused p) ->
  preserves (update_player r f).
Proof.
  intros Hf. apply preserves_update_player. intros p [Hq Hc].
  destruct (Hf p) as (E1 & E2 & E3).
  unfold settled_session, consistent. now rewrite E1, E2, E3.
Qed.

Lemma preserves_removeListener r e f :
  preserves (update_player r (Player.removeListener e f)).
Proof. apply preserves_listener. intros p. repeat split. Qed.

Lemma preserves_remove_wrapper r e f :
  preserves (update_player r (Player.remove_wrapper e f)).
Proof. apply preserves_listener. intros p. repeat split. Qed.

Lemma preserves_on r e f : preserves (update_player r (Player.on e f)).
Proof. apply preserves_listener. intros p. repeat split. Qed.

Lemma preserves_once r e f : preserves (update_player r (Player.once e f)).
Proof. apply preserves_listener. intros p. repeat split. Qed.

#[local] Hint Resolve preserves_removeListener preserves_remove_wrapper preserves_on
  preserves_once : pres.

Lemma preserves_readyHandler g d : preserves (readyHandler g d).
Proof. unfold readyHandler. repeat first [solve [auto with pres] | pres_step]. Qed.

Lemma preserves_disconnectHandler g d : preserves (disconnectHandler g d).
Proof. unfold disconnectHandler. repeat first [solve [auto with pres] | pres_step]. Qed.

#[local] Hint Resolve preserves_readyHandler preserves_disconnectHandler : pres.

Lemma preserves_call_closure f self e arg : preserves (call_closure f self e arg).
Proof. unfold call_closure. repeat first [solve [auto with pres] | pres_step]. Qed.

#[local] Hint Resolve preserves_call_closure : pres.

Lemma preserves_emit r e arg : preserves (emit r e arg).
Proof.
  unfold emit. apply preserves_getPlayer. intros p Hp.
  destruct e; repeat first [solve [auto with pres] | pres_step].
Qed.

#[local] Hint Resolve preserves_emit : pres.

Lemma preserves_perform sw r e :
  (forall r', preserves (sw r')) -> preserves (perform sw r e).
Proof.
  intros Hsw. destruct e; cbn [perform];
    repeat first [solve [auto with pres] | pres_step].
  now apply preserves_setNode, send_counting.
Qed.

Lemma preserves_invoke sw r m :
  (forall p, settled_session p -> settled_session (fst (m p))) ->
  (forall r', preserves (sw r')) ->
  preserves (invoke sw r m).
Proof.
  intros Hm Hsw. unfold invoke. apply preserves_getPlayer. intros p Hp.
  specialize (Hm p Hp). destruct (m p) as [p' es]. cbn in Hm.
  apply preserves_bind; [now apply preserves_setPlayer|intros _].
  apply preserves_for_of. intros e. now apply preserves_perform.
Qed.

Lemma preserves_invoke_plain r m :
  (forall p, settled_session p -> settled_session (fst (m p))) ->
  preserves (invoke_plain r m).
Proof. intros H. apply preserves_invoke; [exact H|]. intros r'. apply preserves_ret. Qed.

Lemma preserves_method r c :
  preserves (invoke_plain r (Player.call c false 0)).
Proof. apply preserves_invoke_plain. intros p. apply call_settled. Qed.

Lemma preserves_players f :
  (forall m : list (string * nat), unique_keys m -> unique_keys (f m)) ->
  preserves (modify (fun w => set_players (f (players w)) w)).
Proof.
  intros Hf. apply preserves_modify.
  intros w (H1 & H2 & H3 & H4 & H5 & H6). repeat split; auto.
  now apply Hf.
Qed.

Lemma preserves_switchNode r leave : preserves (switchNode r leave).
Proof.
  unfold switchNode. apply preserves_getPlayer. intros p Hp.
  apply preserves_bind; [apply preserves_gets|intros threshold].
  apply preserves_bind; [apply preserves_for_of; intros l; auto with pres|intros _].
  apply preserves_bind; [auto with pres|intros restore].
  apply preserves_bind; [auto with pres|intros _].
  apply preserves_bind;
    [apply (preserves_players (Js.delete (Player.guildId p)));
     intros m; apply unique_delete|intros _].
  apply preserves_bind.
  { apply preserves_update_player. intros q [Hq Hc]. split; [exact Hq|reflexivity]. }
  intros _.
  apply preserves_bind; [|intros _; auto with pres].
  destruct leave; [|apply preserves_ret].
  exact (preserves_method r (Player.UpdateVoiceState None false false)).
Qed.

#[local] Hint Resolve preserves_switchNode : pres.

Lemma preserves_call r c : preserves (call r c).
Proof.
  unfold call. apply preserves_getPlayer. intros p Hp.
  apply preserves_bind.
  { destruct c; repeat first [solve [auto with pres] | pres_step]. }
  intros draining. apply preserves_bind; [apply preserves_gets|intros t0].
  apply preserves_invoke; [intros q; apply call_settled|].
  intros r'. apply preserves_switchNode.
Qed.

#[local] Hint Resolve preserves_call : pres.

Lemma preserves_join_register g c o player node promise :
  preserves (join_register g c o player node promise).
Proof.
  unfold join_register. destruct node as [n|]; [|auto with pres].
  apply preserves_bind; [auto with pres|intros h].
  apply preserves_modify.
  intros w (H1 & H2 & H3 & H4 & H5 & H6). repeat split; auto.
  now apply unique_set.
Qed.

Lemma preserves_joinTimeout g promise : preserves (joinTimeout g promise).
Proof. unfold joinTimeout. repeat first [solve [auto with pres] | pres_step]. Qed.

#[local] Hint Resolve preserves_join_register preserves_joinTimeout : pres.

Lemma preserves_join g c o player k : preserves (join g c o player k).
Proof.
  unfold join.
  apply preserves_bind; [auto with pres|intros promise].
  apply preserves_bind; [destruct player; [apply preserves_ret|apply preserves_gets]|].
  intros player'. apply preserves_bind.
  { destruct player' as [r|]; [|apply preserves_ret].
    apply preserves_getPlayer. intros p Hp.
    destruct (negb _); [|apply preserves_ret].
    apply preserves_bind;
      [exact (preserves_method r (Player.SwitchChannel c false))|intros _].
    repeat first [solve [auto with pres] | pres_step]. }
  intros switched. unfold getRegionFromData, findIdealNode.
  repeat first [solve [auto with pres] | pres_step].
Qed.

#[local] Hint Resolve preserves_join : pres.

Lemma preserves_voiceServerUpdate_connect data r :
  preserves (voiceServerUpdate_connect data r).
Proof.
  unfold voiceServerUpdate_connect. apply preserves_getPlayer. intros p Hp.
  apply preserves_bind; [auto with pres|intros entry].
  apply preserves_bind;
    [repeat first [solve [auto with pres] | pres_step]|intros channelId].
  destruct (negb _).
  - repeat first [solve [auto with pres] | pres_step].
  - apply preserves_bind;
      [exact (preserves_method r (Player.Connect _ _ _))|intros _].
    repeat first [solve [auto with pres] | pres_step].
Qed.

#[local] Hint Resolve preserves_voiceServerUpdate_connect : pres.

Lemma preserves_pending_set g e :
  preserves (modify (fun w => set_pendingGuilds (Js.set g e (pendingGuilds w)) w)).
Proof.
  apply preserves_modify.
  intros w (H1 & H2 & H3 & H4 & H5 & H6). repeat split; auto. now apply unique_set.
Qed.

Lemma preserves_voiceServerUpdate data : preserves (voiceServerUpdate data).
Proof.
  unfold voiceServerUpdate.
  apply preserves_bind; [auto with pres|intros entry].
  apply preserves_bind.
  { destruct entry as [e|]; [|apply preserves_ret].
    destruct (PendingJoin.timeout e); [|apply preserves_ret].
    apply preserves_bind; [auto with pres|intros _].
    apply preserves_pending_set. }
  intros _. apply preserves_bind; [apply preserves_gets|intros player].
  destruct player as [r|]; [auto with pres|].
  apply preserves_bind; [auto with pres|intros entry'].
  destruct entry' as [e|]; [|apply preserves_ret].
  destruct (PendingJoin.player e) as [r|].
  - apply preserves_bind.
    { apply preserves_update_player. intros p Hp. exact Hp. }
    intros _. apply preserves_bind.
    { apply preserves_update_player. intros p Hp. exact Hp. }
    intros _. apply preserves_bind; [|intros _; auto with pres].
    apply (preserves_players (Js.set (guild_id data) r)).
    intros m. apply unique_set.
  - apply preserves_bind; [apply preserves_gets|intros t0].
    apply preserves_newPlayer; [apply new_settled|intros r].
    apply preserves_bind; [|intros _; auto with pres].
    apply (preserves_players (Js.set (guild_id data) r)).
    intros m. apply unique_set.
Qed.

#[local] Hint Resolve preserves_voiceServerUpdate : pres.

End InvariantCoordinator.

Section InvariantLoop.

Import PlayerManager.

#[local] Hint Resolve preserves_observe preserves_nextTick preserves_enqueueJob
  preserves_setTimeout preserves_clearTimeout preserves_newClosure
  preserves_newPromise preserves_readNode preserves_settle
  preserves_pending preserves_delete_pending preserves_emit preserves_call
  preserves_switchNode preserves_join preserves_joinTimeout
  preserves_voiceServerUpdate : pres.

Lemma preserves_switchNode_then r g track paused position :
  preserves (switchNode_then r g track paused position).
Proof.
  unfold switchNode_then.
  apply preserves_bind; [destruct paused; auto with pres; apply preserves_ret|intros _].
  apply preserves_bind; [auto with pres|intros _].
  apply preserves_bind; [auto with pres|intros _].
  apply (preserves_players (Js.set g r)). intros m. apply unique_set.
Qed.

Lemma preserves_reaction promise : preserves (reaction promise).
Proof.
  unfold reaction. apply preserves_bind; [apply preserves_gets|intros pr].
  destruct pr as [[k s]|]; [|apply preserves_ret].
  destruct k as [|player g track paused position]; [apply preserves_ret|].
  destruct s as [|[r|reason] rest]; [apply preserves_ret| |].
  - apply preserves_catch; [apply preserves_switchNode_then|].
    intros _. unfold switchNode_catch. auto with pres.
  - unfold switchNode_catch. auto with pres.
Qed.

(** The failover queue is empty: a thunk is called at once. *)
Lemma preserves_processQueue fn : preserves (processQueue fn).
Proof.
  unfold processQueue. repeat first [solve [auto with pres] | pres_step].
Qed.

Lemma preserves_queueFailover fn : preserves (queueFailover fn).
Proof.
  intros w H. unfold queueFailover, bind, gets.
  destruct H as (Hq & H). rewrite Hq. cbn.
  apply preserves_processQueue. split; assumption.
Qed.

Lemma preserves_checkFailoverQueue : preserves checkFailoverQueue.
Proof.
  intros w H. unfold checkFailoverQueue, bind, gets.
  destruct H as (Hq & H). rewrite Hq. cbn. split; assumption.
Qed.

Lemma preserves_onDisconnect node : preserves (onDisconnect node).
Proof.
  unfold onDisconnect.
  apply preserves_bind; [auto with pres|intros n].
  apply preserves_bind; [apply preserves_gets|intros ps].
  apply preserves_for_of. intros [player p]. apply preserves_queueFailover.
Qed.

Lemma preserves_shardReady id : preserves (shardReady id).
Proof.
  unfold shardReady.
  apply preserves_bind; [apply preserves_gets|intros ps].
  apply preserves_for_of. intros [player p]. apply preserves_queueFailover.
Qed.

Lemma preserves_leave g : preserves (leave g).
Proof.
  unfold leave. apply preserves_bind; [apply preserves_gets|intros player].
  destruct player as [r|]; [|apply preserves_ret].
  apply preserves_bind; [exact (preserves_method r Player.Disconnect_)|intros _].
  apply (preserves_players (Js.delete g)). intros m. apply unique_delete.
Qed.

Lemma preserves_node_effect node e : preserves (node_effect node e).
Proof.
  destruct e as [[| |msg|]| | |]; cbn [node_effect];
    repeat first [apply preserves_onDisconnect | solve [auto with pres] | pres_step].
Qed.

Lemma preserves_node_method node m :
  (forall n, counting n -> counting (fst (m n))) ->
  preserves (node_method node m).
Proof.
  intros Hm. unfold node_method. apply preserves_getNode. intros n Hn.
  specialize (Hm n Hn). destruct (m n) as [n' es]. cbn in Hm.
  apply preserves_bind; [now apply preserves_setNode|intros _].
  apply preserves_for_of. intros e. apply preserves_node_effect.
Qed.

Lemma preserves_ready node : preserves (node_method node Lavalink.ready).
Proof. apply preserves_node_method. intros n. apply node_methods_counting. Qed.

Lemma preserves_disconnected node : preserves (node_method node Lavalink.disconnected).
Proof. apply preserves_node_method. intros n. apply node_methods_counting. Qed.

Lemma preserves_reconnect node : preserves (node_method node Lavalink.reconnect).
Proof. apply preserves_node_method. intros n. apply node_methods_counting. Qed.

Lemma preserves_destroy node : preserves (node_method node Lavalink.destroy).
Proof. apply preserves_node_method. intros n. apply node_methods_counting. Qed.

Lemma preserves_createNode o : preserves (createNode o).
Proof.
  unfold createNode. apply preserves_newNode; [apply new_counting|intros node].
  apply preserves_modify.
  intros w (H1 & H2 & H3 & H4 & H5 & H6). repeat split; auto. now apply unique_set.
Qed.

Lemma preserves_removeNode host : preserves (removeNode host).
Proof.
  unfold removeNode. apply preserves_bind; [apply preserves_gets|intros node].
  destruct (negb _); [apply preserves_ret|].
  destruct node as [r|]; [|apply preserves_throw].
  apply preserves_bind; [apply preserves_destroy|intros _].
  apply preserves_bind; [|intros _; apply preserves_onDisconnect].
  apply preserves_modify.
  intros w (H1 & H2 & H3 & H4 & H5 & H6). repeat split; auto. now apply unique_delete.
Qed.

Lemma preserves_input i : preserves (input i).
Proof.
  destruct i; cbn [input].
  - apply preserves_bind; [auto with pres|intros _; apply preserves_ret].
  - auto with pres.
  - apply preserves_leave.
  - apply preserves_shardReady.
  - apply preserves_onDisconnect.
  - apply preserves_ready.
  - unfold socket_close. apply preserves_bind; [auto with pres|intros n].
    destruct (Lavalink.ws n) as [s|]; [|apply preserves_ret].
    destruct (Lavalink.closeListener s);
      [apply preserves_disconnected|apply preserves_ret].
  - apply preserves_createNode.
  - apply preserves_removeNode.
  - auto with pres.
  - apply preserves_bind; [auto with pres|intros f]. apply preserves_on.
  - apply preserves_ret.
Qed.

Lemma preserves_run_tick k : preserves (run_tick k).
Proof.
  destruct k as [r [|e arg]|player g c track paused position]; cbn [run_tick].
  - apply preserves_invoke_plain. intros p. apply checkEventQueue_settled.
  - auto with pres.
  - unfold switchNode_join.
    apply preserves_bind; [auto with pres|intros _; apply preserves_ret].
Qed.

Lemma preserves_run_job j : preserves (run_job j).
Proof.
  destruct j; cbn [run_job]; [apply preserves_join_register|apply preserves_reaction].
Qed.

Lemma preserves_run_timer k : preserves (run_timer k).
Proof.
  destruct k; cbn [run_timer];
    [auto with pres|apply preserves_checkFailoverQueue|apply preserves_reconnect].
Qed.

(** A callback of the event loop, with the report of what it throws. *)
Lemma callback_well_formed c w :
  preserves c -> well_formed w -> well_formed (callback c w).
Proof.
  intros Hc Hw. unfold callback. specialize (Hc w Hw).
  destruct (c w) as [[a|e] w']; exact Hc.
Qed.

Lemma drain_well_formed fuel : forall ph w,
  well_formed w -> well_formed (drain_from ph fuel w).
Proof.
  induction fuel as [|fuel IH]; intros ph w Hw; [exact Hw|].
  destruct ph; cbn [drain_from].
  - destruct (ticks w) as [|k rest] eqn:Et.
    + destruct (jobs w); [exact Hw|]. now apply IH.
    + apply IH, callback_well_formed; [apply preserves_run_tick|exact Hw].
  - destruct (jobs w) as [|j rest] eqn:Ej.
    + destruct (ticks w); [exact Hw|]. now apply IH.
    + apply IH, callback_well_formed; [apply preserves_run_job|exact Hw].
Qed.

Lemma elapse_well_formed fuel : forall deadline w,
  well_formed w -> well_formed (elapse fuel deadline w).
Proof.
  induction fuel as [|fuel IH]; intros deadline w Hw; [exact Hw|].
  cbn [elapse].
  destruct (earliest (timers w)) as [tm|]; [|exact Hw].
  destruct (due tm <=? deadline); [|exact Hw].
  apply IH. unfold drain. apply drain_well_formed.
  apply callback_well_formed; [apply preserves_run_timer|exact Hw].
Qed.

Lemma turn_well_formed fuel w i :
  well_formed w -> well_formed (turn fuel w i).
Proof.
  intros Hw.
  assert (H : well_formed (drain fuel (callback (input i) w))).
  { unfold drain. apply drain_well_formed.
    apply callback_well_formed; [apply preserves_input|exact Hw]. }
  destruct i; try exact H.
  cbn [turn]. now apply elapse_well_formed.
Qed.

Lemma run_well_formed fuel l : forall w,
  well_formed w -> well_formed (run fuel l w).
Proof.
  unfold run. induction l as [|i l IH]; intros w Hw; [exact Hw|].
  cbn [fold_left]. apply IH. now apply turn_well_formed.
Qed.

Lemma new_well_formed nodes_ c : well_formed (new nodes_ c).
Proof.
  unfold new, exec.
  apply preserves_for_of; [intros o; apply preserves_createNode|].
  unfold well_formed, unique_keys. cbn. repeat split; constructor.
Qed.

End InvariantLoop.

(** X19. In every state the coordinator reaches from its constructor,
    whatever comes from the outside and in whatever order (joins, voice
    server updates, leaves, shard and socket events, nodes created and
    removed, calls of the methods of the sessions, time passing), the
    failover queue is empty, no session has a payload waiting in its send
    queue, no session is both playing and paused, no node has a negative
    retry counter, and the maps of players, of nodes and of pending joins
    hold one entry per key. *)
Theorem X19_reachable_states
    (nodes_ : list Lavalink.Options) (c : PlayerManager.Config)
    (fuel : nat) (inputs : list PlayerManager.Input) :
  well_formed (PlayerManager.run fuel inputs (PlayerManager.new nodes_ c)).
Proof. apply run_well_formed, new_well_formed. Qed.

